(** * Catalog/storage reconciliation and DICOM ingestion

    A shallow embedding of [sync_firestore.py] (class [FirestoreStorageSync])
    and [upload_dicoms.py] (class [DicomUploader]), and the properties of the
    reconciliation engine, the metadata builder and the ingestion pipeline.

    Conventions of the embedding:
    - a Python [str] is a [string]; names are taken over the ASCII alphabet,
      on which [str.isdigit] holds exactly for the characters 0 to 9, and
      are shorter than the 4300 digits from which [int] refuses a literal;
    - a Python [int] is a [Z], a [float] a binary64 [float];
    - a [dict] whose iteration order is observable (the series of a study)
      is an association list in insertion order, any other [dict] a [gmap];
      a [set] is a [gset];
    - a Python exception is the [Raise] case of [Result]; code that mutates
      a Firebase service threads the state of that service explicitly. *)

From Stdlib Require Import ZArith Ascii Floats.PrimFloat.
From stdpp Require Import base option list sorting gmap sets strings pretty.

Local Open Scope Z_scope.

(* [set_solver] clears hypotheses it has already consumed. *)
#[local] Set Warnings "-clear-no-such-hyp".

(** ** Python values and builtins *)

Module Py.

Inductive Exn : Set :=
| IndexError | KeyError | ValueError | TypeError
| NotFound            (* google.cloud.exceptions.NotFound *)
| InvalidDicomError.  (* pydicom.errors.InvalidDicomError *)

Inductive Result (A : Type) : Type :=
| Ok (a : A)
| Raise (e : Exn).
Arguments Ok {A} a.
Arguments Raise {A} e.

Definition bind {A B} (m : Result A) (f : A → Result B) : Result B :=
  match m with
  | Ok a => f a
  | Raise e => Raise e
  end.


(** [[f(x) for x in l]] with a fallible [f]: the first exception wins. *)
Fixpoint mapM {A B} (f : A → Result B) (l : list A) : Result (list B) :=
  match l with
  | [] => Ok []
  | x :: r => bind (f x) (λ y, bind (mapM f r) (λ ys, Ok (y :: ys)))
  end.

(** The keys that occur in this program: [str], [int] and [None]. *)
Inductive Key : Set :=
| KStr (s : string)
| KInt (z : Z)
| KNone.

(** [str(k)] *)
Definition str (k : Key) : string :=
  match k with
  | KStr s => s
  | KInt z => pretty z
  | KNone => "None"
  end.

(** *** Characters and [int()] *)

Definition digit_value (c : ascii) : option Z := Z.of_nat <$> Ascii.is_nat c.

(** [str.isdigit] on one character *)
Definition isdigit (c : ascii) : bool :=
  match digit_value c with Some _ => true | None => false end.

(** The characters [int()] and [str.strip()] treat as white space. *)
Definition isspace (c : ascii) : bool :=
  match c with
  | "009" | "010" | "011" | "012" | "013"
  | "028" | "029" | "030" | "031" | " " => true
  | _ => false
  end%char.

(** [''.join(filter(p, s))] *)
Fixpoint filter_chars (p : ascii → bool) (s : string) : string :=
  match s with
  | EmptyString => EmptyString
  | String c r => if p c then String c (filter_chars p r) else filter_chars p r
  end.

Fixpoint lstrip (l : list ascii) : list ascii :=
  match l with
  | c :: r => if isspace c then lstrip r else l
  | [] => []
  end.

Definition strip (l : list ascii) : list ascii := rev (lstrip (rev (lstrip l))).

(** The digits of a decimal literal; one underscore may separate two digits.
    [prev] tells whether the character just read was a digit. *)
Fixpoint int_digits (acc : Z) (prev : bool) (l : list ascii) : Result Z :=
  match l with
  | [] => if prev then Ok acc else Raise ValueError
  | c :: r =>
      match digit_value c with
      | Some d => int_digits (10 * acc + d) true r
      | None =>
          if bool_decide (c = "_"%char) && prev then int_digits acc false r
          else Raise ValueError
      end
  end.

(** [int(s)] for a string [s], base 10 *)
Definition int (s : string) : Result Z :=
  match strip (String.list_ascii_of_string s) with
  | "-"%char :: r => bind (int_digits 0 false r) (λ z, Ok (- z))
  | "+"%char :: r => int_digits 0 false r
  | l => int_digits 0 false l
  end.

(** *** Strings *)

(** [s.endswith(suffix)] *)
Definition endswith (s suffix : string) : bool :=
  bool_decide (String.list_ascii_of_string suffix
               `suffix_of` String.list_ascii_of_string s).

(** [s.startswith(prefix)] *)
Definition startswith (s prefix : string) : bool :=
  bool_decide (String.list_ascii_of_string prefix
               `prefix_of` String.list_ascii_of_string s).

(** [s.split(sep)] for a one-character separator *)
Fixpoint split (sep : ascii) (s : string) : list string :=
  match s with
  | EmptyString => [EmptyString]
  | String c r =>
      if bool_decide (c = sep) then EmptyString :: split sep r
      else match split sep r with
           | h :: t => String c h :: t
           | [] => [String c EmptyString]
           end
  end.

(** *** [sorted] *)

(** [sorted] is stable: of two elements that compare equal the one that
    came first stays first. The embedding inserts from the right, putting an
    element in front of the first one that is not smaller. *)
Fixpoint insert_by {A} (leb : A → A → bool) (x : A) (l : list A) : list A :=
  match l with
  | [] => [x]
  | y :: r => if leb x y then x :: l else y :: insert_by leb x r
  end.

Definition sorted {A} (leb : A → A → bool) (l : list A) : list A :=
  foldr (insert_by leb) [] l.

(** Comparison of two elements on an integer key *)
Definition key_leb {A} (f : A → Z) (a b : A) : bool := bool_decide (f a ≤ f b).

(** [sorted(l, key=key)]: the keys are computed first, all of them, then the
    decorated list is sorted on the keys alone. *)
Definition sorted_key {A} (key : A → Result Z) (l : list A) : Result (list A) :=
  bind (mapM key l) (λ ks,
    Ok ((sorted (λ a b, bool_decide (a.1 ≤ b.1)) (zip ks l)).*2)).

(** [sorted(l)] on strings: code point order, here [String.leb]. *)
Definition sorted_str (l : list string) : list string := sorted String.leb l.

End Py.

Import Py.

#[global] Instance Key_eq_dec : EqDecision Key.
Proof. solve_decision. Defined.

#[global] Instance Key_countable : Countable Key.
Proof.
  refine (inj_countable'
    (λ k, match k with
          | KStr s => inl s
          | KInt z => inr (inl z)
          | KNone => inr (inr ())
          end)
    (λ x, match x with
          | inl s => KStr s
          | inr (inl z) => KInt z
          | inr (inr _) => KNone
          end) _).
  by intros [].
Defined.

(** An insertion-ordered [dict] with [str] keys, as an association list. *)
Module Dict.

Definition t (V : Type) : Type := list (string * V).

Fixpoint get {V} (k : string) (d : t V) : option V :=
  match d with
  | [] => None
  | (k', v) :: r => if bool_decide (k' = k) then Some v else get k r
  end.

(** [d\[k\] = v]: a present key keeps its place, a new one goes last. *)
Fixpoint set {V} (k : string) (v : V) (d : t V) : t V :=
  match d with
  | [] => [(k, v)]
  | (k', v') :: r =>
      if bool_decide (k' = k) then (k', v) :: r else (k', v') :: set k v r
  end.

Definition keys {V} (d : t V) : list string := d.*1.

End Dict.

(** ** Data model *)

Definition bytes : Type := list Byte.byte.

(** What the rest of the code reads off a parsed header ([pydicom] dataset):
    an attribute is absent ([hasattr] is false), present with a value the
    conversion accepts, or present with one the conversion raises on. *)
Inductive Attr (A : Type) : Type :=
| Absent
| Value (v : A)
| Unconvertible (e : Exn).
Arguments Absent {A}.
Arguments Value {A} v.
Arguments Unconvertible {A} e.

Record Dataset : Type := {
  InstanceNumber : Attr Z;
  SliceLocation : Attr float;
  SeriesDescription : option string
}.

(** [conv(dcm.X) if hasattr(dcm, 'X') else dflt] *)
Definition attr_or {A} (a : Attr A) (dflt : A) : Result A :=
  match a with
  | Absent => Ok dflt
  | Value v => Ok v
  | Unconvertible e => Raise e
  end.

(** The dictionary both metadata readers return. *)
Record Metadata : Type := {
  m_instance_number : Z;
  m_slice_location : float;
  m_series_description : string
}.

Inductive Timestamp : Type :=
| SERVER_TIMESTAMP
| IsoTime (s : string).

(** Documents. A key that only one of the two writers puts in a dictionary
    is an [option] field. *)
Record FileRecord : Type := {
  filename : string;
  file_storage_path : option string;
  instance_number : Z;
  slice_location : float;
  file_size : option Z
}.

Record SeriesRecord : Type := {
  series_id : Key;
  description : string;
  slice_count : Z;
  files : list FileRecord;
  storage_path : string;
  uploaded_count : option Z;
  skipped_count : option Z
}.

(** [study_id] is what [.get('study_id')] gives: [KNone] when the document
    has no such field; [total_slices] what [.get('total_slices', 0)] gives. *)
Record StudyDocument : Type := {
  study_id : Key;
  series : list SeriesRecord;
  total_series : Z;
  total_slices : Z;
  upload_date : Timestamp;
  status : string
}.

(** [len(l)] *)
Definition len {A} (l : list A) : Z := Z.of_nat (length l).

(** [sum(l)] *)
Definition sum (l : list Z) : Z := foldl Z.add 0 l.

(** ** The two Firebase services *)

(** Storage bucket: object name to content. *)
Abbreviation Bucket := (gmap string bytes).

(** [bucket.list_blobs(prefix=...)]: the names, in the order of the listing. *)
Definition list_blobs (prefix : string) (bucket : Bucket) : list string :=
  filter (λ n, startswith n prefix = true) (map_to_list bucket).*1.

(** [blob.download_as_bytes()] *)
Definition download_as_bytes (path : string) (bucket : Bucket) : Result bytes :=
  match bucket !! path with
  | Some b => Ok b
  | None => Raise NotFound
  end.

(** Firestore collection [studies]: document id to body, and the mutations
    performed on it so far, oldest first. *)
Inductive Mutation : Type :=
| DocDelete (doc_id : string)
| DocSet (doc_id : string) (body : StudyDocument).

Record Firestore : Type := {
  docs : gmap string StudyDocument;
  mutations : list Mutation
}.

(** [db.collection('studies').document(doc_id).delete()] *)
Definition document_delete (doc_id : string) (db : Firestore) : Firestore :=
  {| docs := delete doc_id (docs db);
     mutations := mutations db ++ [DocDelete doc_id] |}.

(** [db.collection('studies').document(doc_id).set(body)] *)
Definition document_set (doc_id : string) (body : StudyDocument)
    (db : Firestore) : Firestore :=
  {| docs := <[doc_id := body]> (docs db);
     mutations := mutations db ++ [DocSet doc_id body] |}.

(** [db.collection('studies').stream()] *)
Definition stream (db : Firestore) : list (string * StudyDocument) :=
  map_to_list (docs db).

(** ** [sync_firestore.py]: class [FirestoreStorageSync] *)

Module Sync.

Abbreviation StorageSnapshot := (gmap string (Dict.t (list string))).
Abbreviation CatalogSnapshot := (gmap Key (string * StudyDocument)).

(** The line [sync] prints for a study in both: its number of files in
    storage, the [total_slices] of its catalog document, and whether the
    two match. *)
Record ExistingLine : Type := {
  e_study : Key;
  e_storage_files : Z;
  e_firestore_files : Z;
  e_match : bool
}.

(** What [sync] prints about the three categories. *)
Record Summary : Type := {
  n_orphaned : Z;
  n_missing : Z;
  n_existing : Z;
  existing_report : list ExistingLine
}.

Inductive Outcome : Type :=
| DryRun (would : Summary)
| Applied (did : Summary).

(** One pass of the loop of [get_storage_studies] over the listing. *)
Definition add_blob (studies : StorageSnapshot) (name : string)
    : StorageSnapshot :=
  match split "/" name with
  | [_; study_id; series_id; filename] =>
      if endswith filename ".dcm" then
        let series_dict := default [] (studies !! study_id) in
        let filenames := default [] (Dict.get series_id series_dict) in
        <[study_id := Dict.set series_id (filenames ++ [filename]) series_dict]>
          studies
      else studies
  | _ => studies
  end.

Definition group_blobs (blobs : list string) : StorageSnapshot :=
  foldl add_blob ∅ blobs.

Definition get_storage_studies (bucket : Bucket) : StorageSnapshot :=
  group_blobs (list_blobs "dicoms/" bucket).

Definition get_firestore_studies (db : Firestore) : CatalogSnapshot :=
  foldl (λ firestore_studies doc,
           <[study_id doc.2 := (doc.1, doc.2)]> firestore_studies)
        ∅ (stream db).

(** [set(storage_studies.keys())]: the keys are path segments, so [str]. *)
Definition storage_keys (storage_studies : StorageSnapshot) : gset Key :=
  set_map KStr (dom storage_studies).

Definition catalog_keys (firestore_studies : CatalogSnapshot) : gset Key :=
  dom firestore_studies.

Definition orphaned_studies (storage_studies : StorageSnapshot)
    (firestore_studies : CatalogSnapshot) : gset Key :=
  catalog_keys firestore_studies ∖ storage_keys storage_studies.

Definition missing_studies (storage_studies : StorageSnapshot)
    (firestore_studies : CatalogSnapshot) : gset Key :=
  storage_keys storage_studies ∖ catalog_keys firestore_studies.

Definition existing_studies (storage_studies : StorageSnapshot)
    (firestore_studies : CatalogSnapshot) : gset Key :=
  storage_keys storage_studies ∩ catalog_keys firestore_studies.

(** [storage_studies\[study_id\]] for a member of one of the three sets *)
Definition storage_getitem (storage_studies : StorageSnapshot) (k : Key)
    : Result (Dict.t (list string)) :=
  match k with
  | KStr s =>
      match storage_studies !! s with
      | Some d => Ok d
      | None => Raise KeyError
      end
  | _ => Raise KeyError
  end.

(** The loop body that prints the line of an existing study *)
Definition existing_line (storage_studies : StorageSnapshot)
    (firestore_studies : CatalogSnapshot) (study_id : Key)
    : Result ExistingLine :=
  bind (storage_getitem storage_studies study_id) (λ series_dict,
  match firestore_studies !! study_id with
  | None => Raise KeyError
  | Some (_, data) =>
      let storage_files := sum (len <$> series_dict.*2) in
      let firestore_files := total_slices data in
      Ok {| e_study := study_id;
            e_storage_files := storage_files;
            e_firestore_files := firestore_files;
            e_match := bool_decide (storage_files = firestore_files) |}
  end).

(** The sort key [lambda x: int(''.join(filter(str.isdigit, x)) or '0')] *)
Definition numeric_key (x : string) : Result Z :=
  let digits := filter_chars isdigit x in
  int (if bool_decide (digits = EmptyString) then "0" else digits).

Section FirestoreStorageSync.

(** [pydicom.dcmread(..., stop_before_pixels=True)], the header extractor *)
Variable dcmread : bytes → Result Dataset.

Definition download_dicom_metadata (bucket : Bucket)
    (study_id : Key) (series_id filename : string) : Metadata :=
  let blob_path :=
    "dicoms/" +:+ str study_id +:+ "/" +:+ series_id +:+ "/" +:+ filename in
  let body :=
    bind (download_as_bytes blob_path bucket) (λ dcm_bytes,
    bind (dcmread dcm_bytes) (λ dcm,
    bind (attr_or (InstanceNumber dcm) 0) (λ i,
    bind (attr_or (SliceLocation dcm) 0%float) (λ l,
    Ok {| m_instance_number := i;
          m_slice_location := l;
          m_series_description := default "" (SeriesDescription dcm) |})))) in
  match body with
  | Ok m => m
  | Raise _ =>
      {| m_instance_number := 0;
         m_slice_location := 0%float;
         m_series_description := "" |}
  end.

(** The body of the loop over [series_dict.items()] *)
Definition series_entry (bucket : Bucket) (study_id : Key)
    (item : string * list string) : Result SeriesRecord :=
  let '(series_id, filenames) := item in
  bind (sorted_key numeric_key filenames) (λ filenames_sorted,
  bind (match filenames_sorted with
        | first :: _ => Ok first
        | [] => Raise IndexError
        end) (λ first,
  let first_file_metadata :=
    download_dicom_metadata bucket study_id series_id first in
  let file_list :=
    map (λ filename,
           let metadata :=
             download_dicom_metadata bucket study_id series_id filename in
           {| filename := filename;
              file_storage_path := None;
              instance_number := m_instance_number metadata;
              slice_location := m_slice_location metadata;
              file_size := None |})
        filenames_sorted in
  Ok {| series_id := KStr series_id;
        description := m_series_description first_file_metadata;
        slice_count := len filenames;
        files := file_list;
        storage_path :=
          "dicoms/" +:+ str study_id +:+ "/" +:+ series_id +:+ "/";
        uploaded_count := None;
        skipped_count := None |})).

Definition create_study_metadata (bucket : Bucket) (study_id : Key)
    (series_dict : Dict.t (list string)) : Result StudyDocument :=
  bind (mapM (series_entry bucket study_id) series_dict) (λ series_list,
  Ok {| study_id := KStr (str study_id);
        series := series_list;
        total_series := len series_list;
        total_slices := sum (slice_count <$> series_list);
        upload_date := SERVER_TIMESTAMP;
        status := "ready" |}).

(** The three loops of the apply branch. A set is iterated in some order;
    the loops are given the enumeration as a list. *)
Fixpoint delete_orphaned (firestore_studies : CatalogSnapshot)
    (ids : list Key) (db : Firestore) : Firestore * Result () :=
  match ids with
  | [] => (db, Ok ())
  | study_id :: rest =>
      match firestore_studies !! study_id with
      | Some (doc_id, _) =>
          delete_orphaned firestore_studies rest (document_delete doc_id db)
      | None => (db, Raise KeyError)
      end
  end.

Fixpoint write_studies (bucket : Bucket) (storage_studies : StorageSnapshot)
    (ids : list Key) (db : Firestore) : Firestore * Result () :=
  match ids with
  | [] => (db, Ok ())
  | study_id :: rest =>
      match bind (storage_getitem storage_studies study_id)
                 (create_study_metadata bucket study_id) with
      | Ok metadata =>
          write_studies bucket storage_studies rest
            (document_set (str study_id) metadata db)
      | Raise e => (db, Raise e)
      end
  end.

(** Create missing studies *)
Definition create_missing := write_studies.

(** Update existing studies *)
Definition update_existing := write_studies.

Definition sync_on (bucket : Bucket) (db : Firestore) (dry_run : bool)
    (storage_studies : StorageSnapshot) (firestore_studies : CatalogSnapshot)
    : Firestore * Result Outcome :=
  let orphaned := orphaned_studies storage_studies firestore_studies in
  let missing := missing_studies storage_studies firestore_studies in
  let existing := existing_studies storage_studies firestore_studies in
  match mapM (existing_line storage_studies firestore_studies)
          (elements existing) with
  | Raise e => (db, Raise e)
  | Ok report =>
      let summary :=
        {| n_orphaned := Z.of_nat (size orphaned);
           n_missing := Z.of_nat (size missing);
           n_existing := Z.of_nat (size existing);
           existing_report := report |} in
      if dry_run then (db, Ok (DryRun summary))
      else
        match delete_orphaned firestore_studies (elements orphaned) db with
        | (db1, Raise e) => (db1, Raise e)
        | (db1, Ok _) =>
            match create_missing bucket storage_studies
                    (elements missing) db1 with
            | (db2, Raise e) => (db2, Raise e)
            | (db2, Ok _) =>
                match update_existing bucket storage_studies
                        (elements existing) db2 with
                | (db3, Raise e) => (db3, Raise e)
                | (db3, Ok _) => (db3, Ok (Applied summary))
                end
            end
        end
  end.

Definition sync (bucket : Bucket) (db : Firestore) (dry_run : bool)
    : Firestore * Result Outcome :=
  sync_on bucket db dry_run (get_storage_studies bucket)
    (get_firestore_studies db).

End FirestoreStorageSync.

End Sync.

(** ** [upload_dicoms.py]: class [DicomUploader] *)

Module Upload.

(** The local directory tree as the uploader sees it: a study directory
    holds series directories ([iterdir] entries with [is_dir()], in the
    order [iterdir] yields them), a series directory holds files. *)
Record LocalFile : Type := {
  file_name : string;
  file_bytes : bytes
}.

Record SeriesDir : Type := {
  series_dir_name : string;
  series_dir_files : list LocalFile
}.

Record StudyDir : Type := {
  study_dir_name : string;
  study_dir_subdirs : list SeriesDir
}.

(** [sorted(series_dir.glob('*.dcm'))]: paths of one directory compare as
    their names do. *)
Definition glob_dcm_sorted (series_dir : SeriesDir) : list LocalFile :=
  sorted (λ a b, String.leb (file_name a) (file_name b))
    (filter (λ f, endswith (file_name f) ".dcm" = true)
       (series_dir_files series_dir)).

Definition upload_dicom_file (local : LocalFile) (storage_path : string)
    (bucket : Bucket) : Bucket * (bool * string) :=
  if bool_decide (is_Some (bucket !! storage_path))
  then (bucket, (false, "Already exists"))
  else (<[storage_path := file_bytes local]> bucket, (true, "Uploaded")).

(** The state of the loop of [upload_series] *)
Record SeriesLoop : Type := {
  l_bucket : Bucket;
  l_uploaded_count : Z;
  l_skipped_count : Z;
  l_file_list : list FileRecord
}.

Section DicomUploader.

Variable dcmread : bytes → Result Dataset.

Definition get_dicom_metadata (dcm : LocalFile) : Metadata :=
  let body :=
    bind (dcmread (file_bytes dcm)) (λ dcm,
    bind (attr_or (InstanceNumber dcm) 0) (λ i,
    bind (attr_or (SliceLocation dcm) 0%float) (λ l,
    Ok {| m_instance_number := i;
          m_slice_location := l;
          m_series_description :=
            default "Unknown" (SeriesDescription dcm) |}))) in
  match body with
  | Ok m => m
  | Raise _ =>
      {| m_instance_number := 0;
         m_slice_location := 0%float;
         m_series_description := "Unknown" |}
  end.

Definition upload_series_step (study_id series_id : Z) (st : SeriesLoop)
    (dcm_file : LocalFile) : SeriesLoop :=
  let storage_path :=
    "dicoms/" +:+ pretty study_id +:+ "/" +:+ pretty series_id +:+ "/"
      +:+ file_name dcm_file in
  let '(bucket, (uploaded, _)) :=
    upload_dicom_file dcm_file storage_path (l_bucket st) in
  let metadata := get_dicom_metadata dcm_file in
  {| l_bucket := bucket;
     l_uploaded_count :=
       if uploaded then l_uploaded_count st + 1 else l_uploaded_count st;
     l_skipped_count :=
       if uploaded then l_skipped_count st else l_skipped_count st + 1;
     l_file_list :=
       l_file_list st ++
       [{| filename := file_name dcm_file;
           file_storage_path := Some storage_path;
           instance_number := m_instance_number metadata;
           slice_location := m_slice_location metadata;
           file_size := Some (len (file_bytes dcm_file)) |}] |}.

Definition upload_series (study_id series_id : Z) (series_dir : SeriesDir)
    (bucket : Bucket) : Bucket * option SeriesRecord :=
  let dcm_files := glob_dcm_sorted series_dir in
  match dcm_files with
  | [] => (bucket, None)
  | first :: _ =>
      let st :=
        foldl (upload_series_step study_id series_id)
          {| l_bucket := bucket; l_uploaded_count := 0;
             l_skipped_count := 0; l_file_list := [] |}
          dcm_files in
      let first_dcm_metadata := get_dicom_metadata first in
      (l_bucket st,
       Some {| series_id := KInt series_id;
               description := m_series_description first_dcm_metadata;
               slice_count := len dcm_files;
               files := l_file_list st;
               storage_path :=
                 "dicoms/" +:+ pretty study_id +:+ "/" +:+ pretty series_id
                   +:+ "/";
               uploaded_count := Some (l_uploaded_count st);
               skipped_count := Some (l_skipped_count st) |})
  end.

(** The loop of [upload_study] over [sorted(series_dirs)]; [int] of a
    directory name may raise, and what was uploaded before stays. *)
Fixpoint upload_study_loop (study_id : Z) (dirs : list SeriesDir)
    (series_list : list SeriesRecord) (bucket : Bucket)
    : Bucket * Result (list SeriesRecord) :=
  match dirs with
  | [] => (bucket, Ok series_list)
  | series_dir :: rest =>
      match int (series_dir_name series_dir) with
      | Raise e => (bucket, Raise e)
      | Ok series_id =>
          let '(bucket', series_info) :=
            upload_series study_id series_id series_dir bucket in
          upload_study_loop study_id rest
            (match series_info with
             | Some info => series_list ++ [info]
             | None => series_list
             end) bucket'
      end
  end.

(** [now] is what [datetime.utcnow().isoformat()] returns. *)
Definition upload_study (now : string) (study_dir : StudyDir)
    (st : Bucket * Firestore)
    : (Bucket * Firestore) * Result (option StudyDocument) :=
  let '(bucket, db) := st in
  match int (study_dir_name study_dir) with
  | Raise e => (st, Raise e)
  | Ok study_id =>
      let series_dirs := study_dir_subdirs study_dir in
      match series_dirs with
      | [] => (st, Ok None)
      | _ =>
          match upload_study_loop study_id
                  (sorted (λ a b, String.leb (series_dir_name a)
                                             (series_dir_name b)) series_dirs)
                  [] bucket with
          | (bucket', Raise e) => ((bucket', db), Raise e)
          | (bucket', Ok series_list) =>
              let study_metadata :=
                {| study_id := KInt study_id;
                   series := series_list;
                   total_series := len series_list;
                   total_slices := sum (slice_count <$> series_list);
                   upload_date := IsoTime now;
                   status := "ready" |} in
              ((bucket', document_set (pretty study_id) study_metadata db),
               Ok (Some study_metadata))
          end
      end
  end.

End DicomUploader.

End Upload.

(** ** More builtins *)

Module Builtins.

(** [str.lower] on one ASCII character *)
Definition lower_char (c : ascii) : ascii :=
  let n := nat_of_ascii c in
  if ((65 <=? n) && (n <=? 90))%nat then ascii_of_nat (n + 32) else c.

(** [s.lower()] *)
Fixpoint lower (s : string) : string :=
  match s with
  | EmptyString => EmptyString
  | String c r => String (lower_char c) (lower r)
  end.

(** [l\[:n\]]: a negative bound counts from the end. *)
Definition slice_to {A} (n : Z) (l : list A) : list A :=
  if bool_decide (0 ≤ n) then take (Z.to_nat n) l
  else take (length l - Z.to_nat (- n)) l.

(** [sep.join(l)] *)
Fixpoint join (sep : string) (l : list string) : string :=
  match l with
  | [] => EmptyString
  | [x] => x
  | x :: r => x +:+ sep +:+ join sep r
  end.

End Builtins.

(** How a script ends when it does not return: [sys.exit(code)], an
    exception nobody catches, or [input()] at the end of the input. *)
Inductive Stop : Type :=
| SystemExit (code : Z)
| Uncaught (e : Exn)
| EOFError.

(** ** [upload_dicoms.py]: [upload_studies] and [main] *)

Module Ingest.

(** What [Path(dicom_root)] is on disk: nothing, or a directory with its
    subdirectories in the order [iterdir] yields them. *)
Inductive Root : Type :=
| NoSuchDirectory
| Directory (subdirs : list Upload.StudyDir).

(** The dictionary [upload_studies] returns and writes to
    [data/study_metadata.json]. *)
Record MetadataJson : Type := {
  json_version : string;
  json_generated_at : string;
  json_total_studies : Z;
  json_total_series : Z;
  json_total_slices : Z;
  json_studies : list StudyDocument
}.

(** A run of [upload_studies] ends in an exit, or returns the dictionary;
    the names of the failed studies are printed. *)
Inductive Run : Type :=
| Exited (stop : Stop)
| Returned (metadata_json : MetadataJson) (failed_studies : list string).

(** [f"{project_id}.appspot.com"] *)
Definition bucket_name (project_id : string) : string :=
  project_id +:+ ".appspot.com".

Section DicomUploader.

Variable dcmread : bytes → Result Dataset.

(** The clock: [clock i] is what [datetime.utcnow().isoformat()] returns
    while the study at position [i] of the loop is processed, and after the
    loop for the last position. *)
Variable clock : nat → string.

(** The loop over [enumerate(sorted(study_dirs), 1)], with its try block *)
Fixpoint upload_each (idx : nat) (dirs : list Upload.StudyDir)
    (st : Bucket * Firestore)
    (uploaded_studies : list StudyDocument) (failed_studies : list string)
    : (Bucket * Firestore) * (list StudyDocument * list string) :=
  match dirs with
  | [] => (st, (uploaded_studies, failed_studies))
  | study_dir :: rest =>
      match Upload.upload_study dcmread (clock idx) study_dir st with
      | (st', Ok (Some study_metadata)) =>
          upload_each (S idx) rest st'
            (uploaded_studies ++ [study_metadata]) failed_studies
      | (st', _) =>
          upload_each (S idx) rest st' uploaded_studies
            (failed_studies ++ [Upload.study_dir_name study_dir])
      end
  end.

(** [response] is what [input()] returns, [None] at the end of the input. *)
Definition upload_studies (response : option string) (dicom_root : Root)
    (trial_mode : bool) (max_studies : option Z) (st : Bucket * Firestore)
    : (Bucket * Firestore) * Run :=
  match dicom_root with
  | NoSuchDirectory => (st, Exited (SystemExit 1))
  | Directory study_dirs =>
      match study_dirs with
      | [] => (st, Exited (SystemExit 1))
      | _ =>
          let study_dirs :=
            match max_studies with
            | Some n =>
                if bool_decide (n = 0) then study_dirs
                else Builtins.slice_to n study_dirs
            | None => study_dirs
            end in
          let go :=
            let '(st', (uploaded_studies, failed_studies)) :=
              upload_each 0
                (sorted (λ a b, String.leb (Upload.study_dir_name a)
                                           (Upload.study_dir_name b))
                   study_dirs) st [] [] in
            (st',
             Returned
               {| json_version := "1.0";
                  json_generated_at := clock (length study_dirs);
                  json_total_studies := len uploaded_studies;
                  json_total_series := sum (total_series <$> uploaded_studies);
                  json_total_slices := sum (total_slices <$> uploaded_studies);
                  json_studies := uploaded_studies |}
               failed_studies) in
          if trial_mode then
            match response with
            | None => (st, Exited EOFError)
            | Some response =>
                if bool_decide (Builtins.lower response ≠ "yes")
                then (st, Exited (SystemExit 0))
                else go
            end
          else go
      end
  end.

(** [os.path.exists(service_account_path)] and the project the file names:
    [None] when there is no such file, otherwise what opening it and reading
    [project_id] gives. *)
Variable service_account : string → option (Result string).

(** The bucket the SDK connects to, by bucket name. *)
Variable connect : string → Bucket.

(** The directory tree at a path *)
Variable tree : string → Root.

(** [db] is the catalog of the project. The state returned is that of the
    bucket connected to, if any, and of the catalog. *)
Definition main (argv : list string) (response : option string)
    (db : Firestore) : (option Bucket * Firestore) * Run :=
  match argv with
  | _ :: service_account_path :: dicom_directory :: _ =>
      let trial_mode := bool_decide ("--trial" ∈ argv) in
      match service_account service_account_path with
      | None => ((None, db), Exited (SystemExit 1))
      | Some (Raise e) => ((None, db), Exited (Uncaught e))
      | Some (Ok project_id) =>
          let max_studies := if trial_mode then Some 3 else None in
          let '((bucket', db'), run) :=
            upload_studies response (tree dicom_directory) trial_mode
              max_studies (connect (bucket_name project_id), db) in
          ((Some bucket', db'), run)
      end
  | _ => ((None, db), Exited (SystemExit 1))
  end.

End DicomUploader.

End Ingest.

(** ** [sync_firestore.py]: [main] *)

Module SyncMain.

(** [f"{project_id}.firebasestorage.app"] *)
Definition bucket_name (project_id : string) : string :=
  project_id +:+ ".firebasestorage.app".

(** How a run of [main] ends. *)
Inductive Ended : Type :=
| Stopped (stop : Stop)
| Synced (outcome : Sync.Outcome).

Section Main.

Variable dcmread : bytes → Result Dataset.

(** What opening the service account file and reading [project_id] gives. *)
Variable service_account : string → Result string.

(** The bucket the SDK connects to, by bucket name. *)
Variable connect : string → Bucket.

(** [db] is the catalog of the project. *)
Definition main (argv : list string) (db : Firestore) : Firestore * Ended :=
  match argv with
  | _ :: service_account_path :: _ =>
      let dry_run := negb (bool_decide ("--apply" ∈ argv)) in
      match service_account service_account_path with
      | Raise e => (db, Stopped (Uncaught e))
      | Ok project_id =>
          match Sync.sync dcmread (connect (bucket_name project_id)) db
                  dry_run with
          | (db', Ok outcome) => (db', Synced outcome)
          | (db', Raise e) => (db', Stopped (Uncaught e))
          end
      end
  | _ => (db, Stopped (SystemExit 1))
  end.

End Main.

End SyncMain.

(** ** [cleanup_firestore.py]: [main] *)

Module Cleanup.

(** The loop over the stream: one answer is read for each document. *)
Fixpoint cleanup_loop (studies : list (string * StudyDocument))
    (inputs : list string) (db : Firestore) : Firestore * option Stop :=
  match studies with
  | [] => (db, None)
  | (doc_id, study_data) :: rest =>
      match inputs with
      | [] => (db, Some EOFError)
      | response :: inputs' =>
          if bool_decide (Builtins.lower response = "yes")
          then cleanup_loop rest inputs' (document_delete doc_id db)
          else cleanup_loop rest inputs' db
      end
  end.

(** [inputs] are the lines [input()] will return. *)
Definition main (argv : list string) (inputs : list string) (db : Firestore)
    : Firestore * option Stop :=
  match argv with
  | _ :: _ :: _ => cleanup_loop (stream db) inputs db
  | _ => (db, Some (SystemExit 1))
  end.

End Cleanup.

(** * Vocabulary of the properties *)

(** The sort key in the words of the specification: the digit characters of
    a name read as one decimal number, 0 when the name has none. *)
Definition digits_of (x : string) : list Z :=
  omap digit_value (String.list_ascii_of_string x).

Definition decimal (acc : Z) (ds : list Z) : Z :=
  foldl (λ a d, 10 * a + d) acc ds.

Definition digit_key (x : string) : Z := decimal 0 (digits_of x).

(** A storage snapshot is non-degenerate, relative to the listing it was
    built from: no study without series, no series without files, no series
    identifier twice in a study, and every file name has the extension and
    comes from a listed path of exactly four segments. *)
Definition nondegenerate (blobs : list string) (S : Sync.StorageSnapshot)
    : Prop :=
  ∀ study_id series_dict,
    S !! study_id = Some series_dict →
    series_dict ≠ []
    ∧ NoDup (Dict.keys series_dict)
    ∧ ∀ series_id filenames,
        (series_id, filenames) ∈ series_dict →
        filenames ≠ []
        ∧ ∀ filename,
            filename ∈ filenames →
            endswith filename ".dcm" = true
            ∧ ∃ blob root,
                blob ∈ blobs
                ∧ split "/" blob = [root; study_id; series_id; filename].


(** The invariants of the data model on a study document. *)
Definition document_invariants (doc : StudyDocument) : Prop :=
  total_series doc = len (series doc)
  ∧ total_slices doc = sum (slice_count <$> series doc)
  ∧ Forall (λ s, slice_count s = len (files s)) (series doc).

(** A document one of the two writers returns. *)
Definition produced (doc : StudyDocument) : Prop :=
  (∃ dcmread bucket study_id series_dict,
     Sync.create_study_metadata dcmread bucket study_id series_dict = Ok doc)
  ∨ (∃ dcmread now study_dir st st',
       Upload.upload_study dcmread now study_dir st = (st', Ok (Some doc))).


(** The object path a local file is uploaded to. *)
Definition dest_path (study series : Z) (name : string) : string :=
  "dicoms/" +:+ pretty study +:+ "/" +:+ pretty series +:+ "/" +:+ name.

(** Every file of the study directory that ingestion would upload already
    has an object at its destination path. *)
Definition fully_uploaded (bucket : Bucket) (study_dir : Upload.StudyDir)
    : Prop :=
  ∀ study series_dir series f,
    int (Upload.study_dir_name study_dir) = Ok study →
    series_dir ∈ Upload.study_dir_subdirs study_dir →
    int (Upload.series_dir_name series_dir) = Ok series →
    f ∈ Upload.glob_dcm_sorted series_dir →
    is_Some (bucket !! dest_path study series (Upload.file_name f)).

(** A series record reports no upload and every file as skipped. *)
Definition all_skipped (record : SeriesRecord) : Prop :=
  uploaded_count record = Some 0
  ∧ skipped_count record = Some (slice_count record).








(** ** Sample inputs

    The scenario of the specification: storage holds studies A and B, the
    catalog holds B and C. No header is readable in this bucket. *)

Module Sample.

Definition no_header : bytes → Result Dataset :=
  λ _, Raise InvalidDicomError.

Definition bucketAB : Bucket :=
  <["dicoms/A/1/a1.dcm" := []]>
    (<["dicoms/B/1/b3.dcm" := []]>
       (<["dicoms/B/1/b10.dcm" := []]>
          (<["dicoms/B/1/b1.dcm" := []]> ∅))).

Definition stub (k : Key) : StudyDocument :=
  {| study_id := k; series := []; total_series := 0; total_slices := 0;
     upload_date := SERVER_TIMESTAMP; status := "ready" |}.

Definition dbBC : Firestore :=
  {| docs := <["B" := stub (KStr "B")]> (<["C" := stub (KStr "C")]> ∅);
     mutations := [] |}.

(** A local study directory, number 7, with one series of three files and
    a stray text file, and the state after its first ingestion into an empty
    bucket and an empty catalog. *)
Definition study7 : Upload.StudyDir :=
  {| Upload.study_dir_name := "7";
     Upload.study_dir_subdirs :=
       [{| Upload.series_dir_name := "1";
           Upload.series_dir_files :=
             [{| Upload.file_name := "img3.dcm"; Upload.file_bytes := [] |};
              {| Upload.file_name := "notes.txt"; Upload.file_bytes := [] |};
              {| Upload.file_name := "img10.dcm"; Upload.file_bytes := [] |};
              {| Upload.file_name := "img1.dcm"; Upload.file_bytes := [] |}]
        |}] |}.

Definition empty_db : Firestore := {| docs := ∅; mutations := [] |}.

Definition first_run
    : (Bucket * Firestore) * Result (option StudyDocument) :=
  Upload.upload_study no_header "2024-01-01T00:00:00" study7 (∅, empty_db).

Definition second_run
    : (Bucket * Firestore) * Result (option StudyDocument) :=
  Upload.upload_study no_header "2024-01-02T00:00:00" study7 first_run.1.

(** The document the reconciliation path builds for study B. *)
Definition docB : StudyDocument :=
  Eval vm_compute in
    match Sync.create_study_metadata no_header bucketAB (KStr "B")
            [("1", ["b3.dcm"; "b10.dcm"; "b1.dcm"])] with
    | Ok doc => doc
    | Raise _ => stub KNone
    end.



End Sample.

(** ** Vocabulary of the further properties *)

(** The file name a listed path contributes to a series of a study: the
    last of its four segments, when the second and third are the study and
    the series and the name has the extension. *)
Definition recognized (study series blob : string) : option string :=
  match split "/" blob with
  | [_; s; ser; f] =>
      if endswith f ".dcm" && bool_decide (s = study)
         && bool_decide (ser = series)
      then Some f else None
  | _ => None
  end.

(** The file names a snapshot holds for a series of a study, none when the
    study or the series is not in it. *)
Definition files_of (S : Sync.StorageSnapshot) (study series : string)
    : list string :=
  default [] (S !! study ≫= Dict.get series).





(** A string without the character [sep]. *)
Definition free_of (sep : ascii) (s : string) : Prop :=
  sep ∉ String.list_ascii_of_string s.

(** The counts a series record of the ingestion path reports. *)
Definition uploaded_of (record : SeriesRecord) : Z :=
  default 0 (uploaded_count record).

Definition skipped_of (record : SeriesRecord) : Z :=
  default 0 (skipped_count record).

(** The counts of a series record add up, and none is negative. *)
Definition counts_add_up (record : SeriesRecord) : Prop :=
  uploaded_of record + skipped_of record = slice_count record
  ∧ 0 ≤ uploaded_of record ∧ 0 ≤ skipped_of record.


(** A service account file that names a project, and a connection that
    gives the sample bucket whatever the name. *)
Definition sample_account : string → Result string := λ _, Ok "lstv".

Definition sample_connect : string → Bucket := λ _, Sample.bucketAB.


(** The clock and the file system of the sample run of the ingestion. *)
Definition sample_clock : nat → string := λ _, "2024-01-01T00:00:00".

(** * Properties *)

(** ** The builtins *)

Section Sorted.

Context {A : Type} (f : A → Z).

Local Abbreviation leb := (key_leb f).

Lemma insert_by_perm (le : A → A → bool) x l : insert_by le x l ≡ₚ x :: l.
Proof.
  induction l as [|y r IH]; simpl; [done|].
  destruct (le x y); [done|]. rewrite IH. apply Permutation_swap.
Qed.

Lemma sorted_perm (le : A → A → bool) l : sorted le l ≡ₚ l.
Proof.
  induction l as [|x r IH]; simpl; [done|].
  fold (sorted le r). by rewrite insert_by_perm, IH.
Qed.

Lemma sorted_length (le : A → A → bool) l : length (sorted le l) = length l.
Proof. by rewrite (sorted_perm le l). Qed.





(** A stable sort has one result only, so the way [sorted] goes about
    sorting does not show. *)
Lemma stable_sort_unique l1 l2 :
  StronglySorted (λ a b, f a ≤ f b) l1 →
  StronglySorted (λ a b, f a ≤ f b) l2 →
  (∀ k, filter (λ a, f a = k) l1 = filter (λ a, f a = k) l2) →
  l1 = l2.
Proof.
  intros H1. revert l2.
  induction H1 as [|x r1 Hr1 IH Hx]; intros l2 H2 Heq.
  - destruct l2 as [|y r2]; [done|].
    specialize (Heq (f y)). rewrite filter_cons_True in Heq by done. done.
  - destruct H2 as [|y r2 Hr2 Hy].
    { specialize (Heq (f x)). rewrite filter_cons_True in Heq by done. done. }
    assert (f x ≤ f y) as Hxy.
    { pose proof (Heq (f y)) as E.
      assert (y ∈ filter (λ a, f a = f y) (x :: r1)) as Hin.
      { rewrite E, filter_cons_True by done. left. }
      apply list_elem_of_filter in Hin as [Hk Hin].
      apply elem_of_cons in Hin as [->|Hin]; [lia|].
      rewrite Forall_forall in Hx. specialize (Hx _ Hin). simpl in Hx. lia. }
    assert (f y ≤ f x) as Hyx.
    { pose proof (Heq (f x)) as E.
      assert (x ∈ filter (λ a, f a = f x) (y :: r2)) as Hin.
      { rewrite <-E, filter_cons_True by done. left. }
      apply list_elem_of_filter in Hin as [Hk Hin].
      apply elem_of_cons in Hin as [->|Hin]; [lia|].
      rewrite Forall_forall in Hy. specialize (Hy _ Hin). simpl in Hy. lia. }
    assert (x = y) as ->.
    { specialize (Heq (f x)).
      rewrite !filter_cons_True in Heq by lia. congruence. }
    f_equal. apply IH; [done|]. intros k. specialize (Heq k).
    rewrite !filter_cons in Heq. case_decide; congruence.
Qed.

Lemma insert_by_decorated x l :
  (insert_by (λ a b : Z * A, bool_decide (a.1 ≤ b.1)) (f x, x)
     ((λ y, (f y, y)) <$> l)) = (λ y, (f y, y)) <$> insert_by leb x l.
Proof.
  induction l as [|y r IH]; simpl; [done|].
  unfold key_leb at 1. case_bool_decide; simpl; [done|]. f_equal. exact IH.
Qed.

Lemma sorted_decorated l :
  sorted (λ a b : Z * A, bool_decide (a.1 ≤ b.1)) (zip (f <$> l) l)
  = (λ y, (f y, y)) <$> sorted leb l.
Proof.
  induction l as [|x r IH]; [done|].
  change (insert_by (λ a b : Z * A, bool_decide (a.1 ≤ b.1)) (f x, x)
            (sorted (λ a b : Z * A, bool_decide (a.1 ≤ b.1))
               (zip (f <$> r) r))
          = (λ y, (f y, y)) <$> insert_by leb x (sorted leb r)).
  by rewrite IH, insert_by_decorated.
Qed.

Lemma mapM_total {B} (key : A → Result B) (g : A → B) l :
  (∀ x, key x = Ok (g x)) → mapM key l = Ok (g <$> l).
Proof.
  intros Hk. induction l as [|x r IH]; simpl; [done|].
  by rewrite Hk, IH.
Qed.

(** [sorted(l, key=key)] for a key that never raises *)
Lemma sorted_key_total (key : A → Result Z) l :
  (∀ x, key x = Ok (f x)) → sorted_key key l = Ok (sorted leb l).
Proof.
  intros Hk. unfold sorted_key. rewrite (mapM_total key f l Hk). simpl.
  rewrite sorted_decorated, <-list_fmap_compose. f_equal.
  by rewrite <-(list_fmap_id (sorted leb l)) at 2.
Qed.

End Sorted.

(** ** The sort key *)

Lemma isdigit_not_space c : isdigit c = true → isspace c = false.
Proof. by destruct c as [[] [] [] [] [] [] [] []]. Qed.

Lemma lstrip_digits l :
  Forall (λ c, isdigit c = true) l → lstrip l = l.
Proof.
  destruct 1 as [|c r Hc _]; simpl; [done|].
  by rewrite (isdigit_not_space c Hc).
Qed.

Lemma strip_digits l :
  Forall (λ c, isdigit c = true) l → strip l = l.
Proof.
  intros Hl. unfold strip. rewrite (lstrip_digits l Hl).
  rewrite lstrip_digits by by apply Forall_rev.
  apply rev_involutive.
Qed.

Lemma int_digits_total l : ∀ acc prev,
  Forall (λ c, isdigit c = true) l →
  prev = true ∨ l ≠ [] →
  int_digits acc prev l = Ok (decimal acc (omap digit_value l)).
Proof.
  induction l as [|c r IH]; intros acc prev Hl Hne; simpl.
  - by destruct Hne as [->|?].
  - inversion_clear Hl as [|? ? Hc Hr]. unfold isdigit in Hc.
    destruct (digit_value c) as [d|] eqn:E; [|done]. simpl.
    rewrite IH by auto. done.
Qed.

Lemma int_of_digits s :
  Forall (λ c, isdigit c = true) (String.list_ascii_of_string s) →
  s ≠ EmptyString →
  int s = Ok (decimal 0 (omap digit_value (String.list_ascii_of_string s))).
Proof.
  intros Hs Hne. unfold int. rewrite (strip_digits _ Hs).
  destruct s as [|c r]; [done|].
  change (String.list_ascii_of_string (String c r))
    with (c :: String.list_ascii_of_string r) in *.
  assert (isdigit c = true) as Hc by by inversion Hs.
  rewrite <-(int_digits_total (c :: String.list_ascii_of_string r) 0 false)
    by auto.
  destruct c as [[] [] [] [] [] [] [] []]; first [discriminate Hc|reflexivity].
Qed.

Lemma filter_chars_digits x :
  Forall (λ c, isdigit c = true)
    (String.list_ascii_of_string (filter_chars isdigit x)).
Proof.
  induction x as [|c r IH]; simpl; [constructor|].
  destruct (isdigit c) eqn:E; simpl; [by constructor|done].
Qed.

Lemma filter_chars_values x :
  omap digit_value (String.list_ascii_of_string (filter_chars isdigit x))
  = digits_of x.
Proof.
  unfold digits_of. induction x as [|c r IH]; [done|].
  change (String.list_ascii_of_string (String c r))
    with (c :: String.list_ascii_of_string r).
  change (filter_chars isdigit (String c r))
    with (if isdigit c then String c (filter_chars isdigit r)
          else filter_chars isdigit r).
  destruct (isdigit c) eqn:Ei; unfold isdigit in Ei;
    destruct (digit_value c) eqn:E; try done.
  - change (String.list_ascii_of_string (String c ?s))
      with (c :: String.list_ascii_of_string s).
    cbn [omap list_omap]. rewrite E. f_equal. exact IH.
  - cbn [omap list_omap]. rewrite E. exact IH.
Qed.

(** The key never raises, and it is the number the digits spell. *)
Lemma numeric_key_total x : Sync.numeric_key x = Ok (digit_key x).
Proof.
  unfold Sync.numeric_key, digit_key. case_bool_decide as Hd.
  - rewrite <-filter_chars_values, Hd. reflexivity.
  - rewrite int_of_digits by auto using filter_chars_digits.
    by rewrite filter_chars_values.
Qed.

(** ** The three categories *)

(** C1. For every storage snapshot and catalog snapshot the planner's
    orphaned set is keys(C) minus keys(S), its missing set keys(S) minus
    keys(C), its existing set their intersection; the union of the three is
    keys(S) union keys(C), and the three are pairwise disjoint. *)
Theorem reconciliation_partition
    (S : Sync.StorageSnapshot) (C : Sync.CatalogSnapshot) :
  let orphaned := Sync.orphaned_studies S C in
  let missing := Sync.missing_studies S C in
  let existing := Sync.existing_studies S C in
  orphaned = Sync.catalog_keys C ∖ Sync.storage_keys S
  ∧ missing = Sync.storage_keys S ∖ Sync.catalog_keys C
  ∧ existing = Sync.storage_keys S ∩ Sync.catalog_keys C
  ∧ orphaned ∪ missing ∪ existing = Sync.storage_keys S ∪ Sync.catalog_keys C
  ∧ orphaned ## missing ∧ orphaned ## existing ∧ missing ## existing.
Proof.
  simpl. unfold Sync.orphaned_studies, Sync.missing_studies,
    Sync.existing_studies.
  repeat split; try done; try set_solver.
  apply set_eq. intros k.
  destruct (decide (k ∈ Sync.storage_keys S));
    destruct (decide (k ∈ Sync.catalog_keys C)); set_solver.
Qed.

(** The scenario: orphaned is C, missing is A, existing is B. *)
Example scenario_categories :
  let S := Sync.get_storage_studies Sample.bucketAB in
  let C := Sync.get_firestore_studies Sample.dbBC in
  Sync.orphaned_studies S C = {[KStr "C"]}
  ∧ Sync.missing_studies S C = {[KStr "A"]}
  ∧ Sync.existing_studies S C = {[KStr "B"]}.
Proof. vm_compute. done. Qed.

(** ** Dry run *)

Lemma mapM_retract {A B} (f : A → Result B) (g : B → A) l :
  (∀ x, x ∈ l → ∃ y, f x = Ok y ∧ g y = x) →
  ∃ ys, mapM f l = Ok ys ∧ g <$> ys = l.
Proof.
  induction l as [|a r IH]; intros H; simpl.
  { by exists []. }
  destruct (H a) as (b & -> & Hb); [apply list_elem_of_here|].
  destruct IH as (ys & -> & Hys).
  { intros x Hx. by apply H, list_elem_of_further. }
  exists (b :: ys). split; [done|]. by rewrite fmap_cons, Hb, Hys.
Qed.

(** The report on the existing studies never raises: each of them is in
    both snapshots. *)
Lemma existing_report_Ok (S : Sync.StorageSnapshot) (C : Sync.CatalogSnapshot) :
  ∃ report,
    mapM (Sync.existing_line S C) (elements (Sync.existing_studies S C))
    = Ok report
    ∧ Sync.e_study <$> report = elements (Sync.existing_studies S C).
Proof.
  apply mapM_retract. intros k Hk%elem_of_elements.
  unfold Sync.existing_studies, Sync.storage_keys, Sync.catalog_keys in Hk.
  apply elem_of_intersection in Hk as [HS HC].
  apply elem_of_map in HS as (s & -> & [sd Hsd]%elem_of_dom).
  apply elem_of_dom in HC as [[doc_id data] HC].
  unfold Sync.existing_line. simpl. rewrite Hsd. simpl. rewrite HC.
  by eexists.
Qed.

(** C5. For every bucket and catalog, sync in dry-run mode returns the
    catalog as it was, with the same documents and no mutation performed,
    and produces only the summary: the three counts and one line for each
    existing study. *)
Theorem dry_run_no_mutation
    (dcmread : bytes → Result Dataset) (bucket : Bucket) (db : Firestore) :
  let S := Sync.get_storage_studies bucket in
  let C := Sync.get_firestore_studies db in
  let result := Sync.sync dcmread bucket db true in
  docs result.1 = docs db
  ∧ mutations result.1 = mutations db
  ∧ ∃ summary,
      result.2 = Ok (Sync.DryRun summary)
      ∧ Sync.n_orphaned summary = Z.of_nat (size (Sync.orphaned_studies S C))
      ∧ Sync.n_missing summary = Z.of_nat (size (Sync.missing_studies S C))
      ∧ Sync.n_existing summary = Z.of_nat (size (Sync.existing_studies S C))
      ∧ Sync.e_study <$> Sync.existing_report summary
        = elements (Sync.existing_studies S C).
Proof.
  cbv zeta. unfold Sync.sync, Sync.sync_on.
  destruct (existing_report_Ok (Sync.get_storage_studies bucket)
              (Sync.get_firestore_studies db)) as (report & -> & Hreport).
  simpl. split_and!; [done|done|]. by eexists.
Qed.

(** The scenario: the summary reports 1/1/1, study B with 3 files in
    storage against 0 in its document, and the catalog keeps its keys. *)
Example scenario_dry_run :
  let result := Sync.sync Sample.no_header Sample.bucketAB Sample.dbBC true in
  result.2
  = Ok (Sync.DryRun
          {| Sync.n_orphaned := 1; Sync.n_missing := 1; Sync.n_existing := 1;
             Sync.existing_report :=
               [{| Sync.e_study := KStr "B"; Sync.e_storage_files := 3;
                   Sync.e_firestore_files := 0; Sync.e_match := false |}] |})
  ∧ dom (docs result.1) = {["B"; "C"]}
  ∧ mutations result.1 = [].
Proof. vm_compute. done. Qed.

(** The scenario applied: one delete, one create, one update, in this order. *)
Example scenario_apply :
  let result := Sync.sync Sample.no_header Sample.bucketAB Sample.dbBC false in
  (match mutations result.1 with
   | [DocDelete "C"; DocSet "A" _; DocSet "B" _] => true
   | _ => false
   end) = true
  ∧ dom (docs result.1) = {["A"; "B"]}.
Proof. vm_compute. done. Qed.

(** ** File order *)


(** ** Insertion-ordered dictionaries *)

Lemma dict_get_elem {V} k (v : V) d : Dict.get k d = Some v → (k, v) ∈ d.
Proof.
  induction d as [|[k' v'] r IH]; simpl; [done|].
  case_bool_decide as Hk.
  - intros [= ->]. subst. left.
  - intros H. right. by apply IH.
Qed.

Lemma dict_set_elem {V} k (v : V) d k' v' :
  (k', v') ∈ Dict.set k v d → (k' = k ∧ v' = v) ∨ (k', v') ∈ d.
Proof.
  induction d as [|[k0 v0] r IH]; simpl.
  - intros [[= -> ->]|[]%not_elem_of_nil]%elem_of_cons. by left.
  - case_bool_decide as Hk.
    + intros [[= -> ->]|H]%elem_of_cons; [by left|].
      right. by right.
    + intros [[= -> ->]|H]%elem_of_cons; [right; left|].
      destruct (IH H) as [?|?]; [by left|]. right. by right.
Qed.

Lemma dict_set_nonempty {V} k (v : V) d : Dict.set k v d ≠ [].
Proof. destruct d as [|[k0 v0] r]; simpl; [done|]. by case_bool_decide. Qed.

Lemma dict_set_keys {V} k (v : V) d :
  Dict.keys (Dict.set k v d)
  = if bool_decide (k ∈ Dict.keys d) then Dict.keys d else Dict.keys d ++ [k].
Proof.
  unfold Dict.keys. induction d as [|[k0 v0] r IH]; [done|].
  cbn [Dict.set]. destruct (decide (k0 = k)) as [->|Hne].
  - rewrite (bool_decide_true (k = k)) by done. csimpl.
    by rewrite bool_decide_true by apply list_elem_of_here.
  - rewrite (bool_decide_false (k0 = k)) by done. csimpl. rewrite IH.
    destruct (decide (k ∈ r.*1)) as [Hin|Hin].
    + rewrite !bool_decide_true;
        [done|by apply list_elem_of_further|done].
    + rewrite !bool_decide_false; [done| |done].
      intros [?|?]%elem_of_cons; congruence.
Qed.

Lemma dict_set_NoDup {V} k (v : V) d :
  NoDup (Dict.keys d) → NoDup (Dict.keys (Dict.set k v d)).
Proof.
  intros Hd. rewrite dict_set_keys. case_bool_decide as Hk; [done|].
  apply NoDup_app. split_and!; [done| |apply NoDup_singleton].
  intros x Hx [->|[]%not_elem_of_nil]%elem_of_cons. done.
Qed.

(** ** The storage scanner *)

Lemma add_blob_nondegenerate blobs S blob :
  blob ∈ blobs → nondegenerate blobs S →
  nondegenerate blobs (Sync.add_blob S blob).
Proof.
  intros Hb HS. unfold Sync.add_blob.
  destruct (split "/" blob)
    as [|root [|study [|ser [|fn [|? ?]]]]] eqn:Hsplit; try done.
  destruct (endswith fn ".dcm") eqn:Hext; [|done].
  intros study_id series_dict.
  destruct (decide (study = study_id)) as [->|Hne];
    [|rewrite lookup_insert_ne by done; apply HS].
  rewrite lookup_insert_eq. intros [= <-].
  assert (∀ sd, S !! study_id = Some sd → default [] (S !! study_id) = sd)
    as Hdef by (by intros sd ->).
  split_and!.
  - apply dict_set_nonempty.
  - apply dict_set_NoDup. destruct (S !! study_id) as [sd|] eqn:E; simpl.
    + by destruct (HS _ _ E) as (_ & ? & _).
    + constructor.
  - intros series_id filenames [[-> ->]|Hin]%dict_set_elem.
    + split; [by intros [_ [=]]%app_nil|].
      intros filename [Hin|Hin]%elem_of_app.
      * destruct (S !! study_id) as [sd|] eqn:E; simpl in Hin;
          [|by apply not_elem_of_nil in Hin].
        destruct (Dict.get ser sd) as [fns|] eqn:Eg; simpl in Hin;
          [|by apply not_elem_of_nil in Hin].
        destruct (HS _ _ E) as (_ & _ & Hsd).
        destruct (Hsd _ _ (dict_get_elem _ _ _ Eg)) as [_ Hfn]. by apply Hfn.
      * apply list_elem_of_singleton in Hin as ->. split; [done|].
        by exists blob, root.
    + destruct (S !! study_id) as [sd|] eqn:E; simpl in Hin;
        [|by apply not_elem_of_nil in Hin].
      destruct (HS _ _ E) as (_ & _ & Hsd). by apply Hsd.
Qed.

Lemma group_blobs_nondegenerate blobs :
  nondegenerate blobs (Sync.group_blobs blobs).
Proof.
  unfold Sync.group_blobs.
  cut (∀ l S, l ⊆ blobs → nondegenerate blobs S →
              nondegenerate blobs (foldl Sync.add_blob S l)).
  { intros H. apply H; [done|]. intros ? ?. by rewrite lookup_empty. }
  induction l as [|b r IH]; intros S Hl HS; simpl; [done|].
  apply IH; [set_solver|]. apply add_blob_nondegenerate; [set_solver|done].
Qed.


(** ** The metadata builder of the reconciliation path *)


Lemma mapM_Ok_Forall {A B} (f : A → Result B) (P : B → Prop) l ys :
  mapM f l = Ok ys → (∀ x y, x ∈ l → f x = Ok y → P y) → Forall P ys.
Proof.
  revert ys. induction l as [|a r IH]; intros ys Hm HP; simpl in Hm.
  { injection Hm as <-. constructor. }
  destruct (f a) as [b|] eqn:Ea; [|done]. simpl in Hm.
  destruct (mapM f r) as [bs|] eqn:Er; [|done]. injection Hm as <-.
  constructor.
  - apply (HP a); [apply list_elem_of_here|done].
  - apply IH; [done|]. intros x y Hx. apply HP. by apply list_elem_of_further.
Qed.


Section Builder.

Context (dcmread : bytes → Result Dataset) (bucket : Bucket) (study_id : Key).

(** What the body of the series loop returns for a series with files. *)
Lemma series_entry_Ok series_id filenames :
  filenames ≠ [] →
  ∃ first,
    head (sorted (key_leb digit_key) filenames) = Some first
    ∧ Sync.series_entry dcmread bucket study_id (series_id, filenames)
      = Ok {| series_id := KStr series_id;
              description :=
                m_series_description
                  (Sync.download_dicom_metadata dcmread bucket study_id
                     series_id first);
              slice_count := len filenames;
              files :=
                (λ name,
                   let metadata :=
                     Sync.download_dicom_metadata dcmread bucket study_id
                       series_id name in
                   {| filename := name;
                      file_storage_path := None;
                      instance_number := m_instance_number metadata;
                      slice_location := m_slice_location metadata;
                      file_size := None |})
                <$> sorted (key_leb digit_key) filenames;
              storage_path :=
                "dicoms/" +:+ str study_id +:+ "/" +:+ series_id +:+ "/";
              uploaded_count := None;
              skipped_count := None |}.
Proof.
  intros Hne. unfold Sync.series_entry.
  rewrite (sorted_key_total digit_key) by apply numeric_key_total. simpl.
  destruct (sorted (key_leb digit_key) filenames) as [|first rest] eqn:E.
  - destruct Hne. apply Permutation_nil_r. rewrite <-E.
    symmetry. apply sorted_perm.
  - by exists first.
Qed.






End Builder.



(** ** Unreadable headers *)




(** ** Snapshots of the storage scanner *)


(** ** The upload loop of a series *)

Section UploadSeries.

Context (dcmread : bytes → Result Dataset) (study series : Z).

Local Abbreviation step := (Upload.upload_series_step dcmread study series).

Lemma upload_dicom_file_exists local path (bucket : Bucket) :
  is_Some (bucket !! path) →
  Upload.upload_dicom_file local path bucket
  = (bucket, (false, "Already exists")).
Proof.
  intros H. unfold Upload.upload_dicom_file. by rewrite bool_decide_true.
Qed.

Lemma upload_dicom_file_new local path (bucket : Bucket) :
  bucket !! path = None →
  Upload.upload_dicom_file local path bucket
  = (<[path := Upload.file_bytes local]> bucket, (true, "Uploaded")).
Proof.
  intros H. unfold Upload.upload_dicom_file. rewrite bool_decide_false; [done|].
  rewrite H. by intros [? [=]].
Qed.

Lemma step_bucket st f :
  Upload.l_bucket (step st f)
  = match Upload.l_bucket st !! dest_path study series (Upload.file_name f)
    with
    | Some _ => Upload.l_bucket st
    | None =>
        <[dest_path study series (Upload.file_name f)
          := Upload.file_bytes f]> (Upload.l_bucket st)
    end.
Proof.
  unfold Upload.upload_series_step.
  fold (dest_path study series (Upload.file_name f)).
  destruct (Upload.l_bucket st !! dest_path study series (Upload.file_name f))
    as [b|] eqn:E.
  - by rewrite upload_dicom_file_exists by by rewrite E.
  - by rewrite upload_dicom_file_new.
Qed.

Lemma step_counts st f :
  is_Some (Upload.l_bucket st !! dest_path study series (Upload.file_name f)) →
  Upload.l_uploaded_count (step st f) = Upload.l_uploaded_count st
  ∧ Upload.l_skipped_count (step st f) = Upload.l_skipped_count st + 1.
Proof.
  intros H. unfold Upload.upload_series_step.
  fold (dest_path study series (Upload.file_name f)).
  by rewrite upload_dicom_file_exists.
Qed.

Lemma step_file_list st f :
  length (Upload.l_file_list (step st f))
  = S (length (Upload.l_file_list st)).
Proof.
  unfold Upload.upload_series_step.
  destruct (Upload.upload_dicom_file _ _ _) as [b [u m]]. simpl.
  rewrite length_app. simpl. lia.
Qed.

Lemma step_bucket_mono st f path :
  is_Some (Upload.l_bucket st !! path) →
  is_Some (Upload.l_bucket (step st f) !! path).
Proof.
  intros H. rewrite step_bucket.
  destruct (Upload.l_bucket st !! dest_path study series (Upload.file_name f));
    [done|].
  destruct (decide (dest_path study series (Upload.file_name f) = path))
    as [->|Hne].
  - by rewrite lookup_insert_eq.
  - by rewrite lookup_insert_ne.
Qed.

Lemma step_bucket_stored st f :
  is_Some (Upload.l_bucket (step st f)
           !! dest_path study series (Upload.file_name f)).
Proof.
  rewrite step_bucket.
  destruct (Upload.l_bucket st !! dest_path study series (Upload.file_name f))
    as [b|] eqn:E; [by rewrite E|].
  by rewrite lookup_insert_eq.
Qed.

Lemma loop_file_list l : ∀ st,
  length (Upload.l_file_list (foldl step st l))
  = (length (Upload.l_file_list st) + length l)%nat.
Proof.
  induction l as [|f r IH]; intros st; simpl; [lia|].
  rewrite IH, step_file_list. lia.
Qed.

Lemma loop_bucket_mono l : ∀ st path,
  is_Some (Upload.l_bucket st !! path) →
  is_Some (Upload.l_bucket (foldl step st l) !! path).
Proof.
  induction l as [|f r IH]; intros st path H; simpl; [done|].
  by apply IH, step_bucket_mono.
Qed.

Lemma loop_bucket_stored l : ∀ st f,
  f ∈ l →
  is_Some (Upload.l_bucket (foldl step st l)
           !! dest_path study series (Upload.file_name f)).
Proof.
  induction l as [|g r IH]; intros st f Hf; simpl.
  { by apply not_elem_of_nil in Hf. }
  apply elem_of_cons in Hf as [->|Hf].
  - apply loop_bucket_mono, step_bucket_stored.
  - by apply IH.
Qed.

(** When every destination exists the loop uploads nothing. *)
Lemma loop_all_exist l : ∀ st,
  (∀ f, f ∈ l →
        is_Some (Upload.l_bucket st
                 !! dest_path study series (Upload.file_name f))) →
  Upload.l_bucket (foldl step st l) = Upload.l_bucket st
  ∧ Upload.l_uploaded_count (foldl step st l) = Upload.l_uploaded_count st
  ∧ Upload.l_skipped_count (foldl step st l)
    = Upload.l_skipped_count st + len l.
Proof.
  induction l as [|f r IH]; intros st H; simpl.
  { unfold len. simpl. split_and!; [done|done|lia]. }
  assert (is_Some (Upload.l_bucket st
                   !! dest_path study series (Upload.file_name f))) as Hf
    by apply H, list_elem_of_here.
  assert (Upload.l_bucket (step st f) = Upload.l_bucket st) as Hb.
  { rewrite step_bucket. by destruct Hf as [b ->]. }
  destruct (step_counts st f Hf) as [Hu Hs].
  destruct (IH (step st f)) as (-> & -> & ->).
  { intros g Hg. rewrite Hb. by apply H, list_elem_of_further. }
  unfold len. rewrite Hb, Hu, Hs. split_and!; [done|done|].
  simpl length. lia.
Qed.

Lemma upload_series_None series_dir bucket :
  Upload.glob_dcm_sorted series_dir = [] →
  Upload.upload_series dcmread study series series_dir bucket = (bucket, None).
Proof. intros H. unfold Upload.upload_series. by rewrite H. Qed.

Lemma upload_series_Some series_dir bucket :
  Upload.glob_dcm_sorted series_dir ≠ [] →
  ∃ record,
    Upload.upload_series dcmread study series series_dir bucket
    = (Upload.l_bucket
         (foldl step
            {| Upload.l_bucket := bucket; Upload.l_uploaded_count := 0;
               Upload.l_skipped_count := 0; Upload.l_file_list := [] |}
            (Upload.glob_dcm_sorted series_dir)),
       Some record)
    ∧ series_id record = KInt series
    ∧ slice_count record = len (Upload.glob_dcm_sorted series_dir)
    ∧ files record
      = Upload.l_file_list
          (foldl step
             {| Upload.l_bucket := bucket; Upload.l_uploaded_count := 0;
                Upload.l_skipped_count := 0; Upload.l_file_list := [] |}
             (Upload.glob_dcm_sorted series_dir))
    ∧ uploaded_count record
      = Some (Upload.l_uploaded_count
                (foldl step
                   {| Upload.l_bucket := bucket; Upload.l_uploaded_count := 0;
                      Upload.l_skipped_count := 0; Upload.l_file_list := [] |}
                   (Upload.glob_dcm_sorted series_dir)))
    ∧ skipped_count record
      = Some (Upload.l_skipped_count
                (foldl step
                   {| Upload.l_bucket := bucket; Upload.l_uploaded_count := 0;
                      Upload.l_skipped_count := 0; Upload.l_file_list := [] |}
                   (Upload.glob_dcm_sorted series_dir))).
Proof.
  intros Hne. unfold Upload.upload_series.
  destruct (Upload.glob_dcm_sorted series_dir) as [|first rest]; [done|].
  eexists. split; [reflexivity|]. done.
Qed.

End UploadSeries.

(** ** Uploading a series and a study *)

Section UploadStudy.

Context (dcmread : bytes → Result Dataset) (study : Z).

Lemma upload_series_bucket series series_dir (bucket : Bucket) :
  let r := Upload.upload_series dcmread study series series_dir bucket in
  (∀ path, is_Some (bucket !! path) → is_Some (r.1 !! path))
  ∧ (∀ f, f ∈ Upload.glob_dcm_sorted series_dir →
          is_Some (r.1 !! dest_path study series (Upload.file_name f))).
Proof.
  cbv zeta.
  destruct (decide (Upload.glob_dcm_sorted series_dir = [])) as [E|E].
  - rewrite upload_series_None by done. simpl. split; [done|].
    intros f Hf. rewrite E in Hf. by apply not_elem_of_nil in Hf.
  - destruct (upload_series_Some dcmread study series series_dir bucket E)
      as (record & -> & _). simpl. split.
    + intros path H. by apply loop_bucket_mono.
    + intros f Hf. by apply loop_bucket_stored.
Qed.

Lemma upload_series_rerun series series_dir (bucket : Bucket) :
  (∀ f, f ∈ Upload.glob_dcm_sorted series_dir →
        is_Some (bucket !! dest_path study series (Upload.file_name f))) →
  let r := Upload.upload_series dcmread study series series_dir bucket in
  r.1 = bucket ∧ ∀ record, r.2 = Some record → all_skipped record.
Proof.
  intros H. cbv zeta.
  destruct (decide (Upload.glob_dcm_sorted series_dir = [])) as [E|E].
  - by rewrite upload_series_None by done.
  - destruct (upload_series_Some dcmread study series series_dir bucket E)
      as (record & -> & _ & Hc & _ & Hu & Hs). simpl.
    destruct (loop_all_exist dcmread study series
                (Upload.glob_dcm_sorted series_dir)
                {| Upload.l_bucket := bucket; Upload.l_uploaded_count := 0;
                   Upload.l_skipped_count := 0; Upload.l_file_list := [] |} H)
      as (Hb & Hu' & Hs').
    split; [exact Hb|]. intros ? [= <-]. unfold all_skipped.
    rewrite Hu, Hs, Hc, Hu', Hs'. simpl. split; [done|f_equal; lia].
Qed.

Lemma upload_series_counts series series_dir (bucket : Bucket) record :
  (Upload.upload_series dcmread study series series_dir bucket).2 = Some record →
  slice_count record = len (files record).
Proof.
  destruct (decide (Upload.glob_dcm_sorted series_dir = [])) as [E|E].
  - by rewrite upload_series_None by done.
  - destruct (upload_series_Some dcmread study series series_dir bucket E)
      as (record' & -> & _ & Hc & Hf & _). simpl. intros [= <-].
    rewrite Hc, Hf. unfold len. by rewrite loop_file_list.
Qed.

(** One round of the loop over the series directories. *)
Lemma upload_study_loop_cons series_dir rest acc (bucket : Bucket) :
  Upload.upload_study_loop dcmread study (series_dir :: rest) acc bucket
  = match int (Upload.series_dir_name series_dir) with
    | Raise e => (bucket, Raise e)
    | Ok series =>
        let r := Upload.upload_series dcmread study series series_dir bucket in
        Upload.upload_study_loop dcmread study rest
          (match r.2 with Some info => acc ++ [info] | None => acc end) r.1
    end.
Proof.
  simpl. destruct (int _); [|done].
  by destruct (Upload.upload_series _ _ _ _ _).
Qed.

Lemma upload_study_loop_rerun dirs : ∀ acc (bucket : Bucket),
  (∀ series_dir series f,
     series_dir ∈ dirs →
     int (Upload.series_dir_name series_dir) = Ok series →
     f ∈ Upload.glob_dcm_sorted series_dir →
     is_Some (bucket !! dest_path study series (Upload.file_name f))) →
  Forall all_skipped acc →
  let r := Upload.upload_study_loop dcmread study dirs acc bucket in
  r.1 = bucket ∧ ∀ l, r.2 = Ok l → Forall all_skipped l.
Proof.
  induction dirs as [|d rest IH]; intros acc bucket H Hacc; cbv zeta.
  { simpl. split; [done|]. by intros ? [= <-]. }
  rewrite upload_study_loop_cons.
  destruct (int (Upload.series_dir_name d)) as [series|e] eqn:E; [|done].
  cbv zeta.
  destruct (upload_series_rerun series d bucket) as [Hb Hrec].
  { intros f Hf. eapply H; [apply list_elem_of_here|done|done]. }
  rewrite Hb. apply IH.
  - intros sd s f Hsd. apply H. by apply list_elem_of_further.
  - destruct (Upload.upload_series _ _ _ _ _).2 as [info|]; [|done].
    apply Forall_app. split; [done|]. constructor; [by apply Hrec|done].
Qed.

Lemma upload_study_loop_counts dirs : ∀ acc (bucket : Bucket) b' l,
  Upload.upload_study_loop dcmread study dirs acc bucket = (b', Ok l) →
  Forall (λ s, slice_count s = len (files s)) acc →
  Forall (λ s, slice_count s = len (files s)) l.
Proof.
  induction dirs as [|d rest IH]; intros acc bucket b' l Hl Hacc.
  { simpl in Hl. by injection Hl as _ <-. }
  rewrite upload_study_loop_cons in Hl.
  destruct (int (Upload.series_dir_name d)) as [series|e] eqn:E; [|done].
  cbv zeta in Hl. eapply IH; [exact Hl|].
  destruct (Upload.upload_series _ _ _ _ _).2 as [info|] eqn:Ei; [|done].
  apply Forall_app. split; [done|]. constructor; [|done].
  by eapply upload_series_counts.
Qed.

Lemma upload_study_loop_stored dirs : ∀ acc (bucket : Bucket) b' l,
  Upload.upload_study_loop dcmread study dirs acc bucket = (b', Ok l) →
  (∀ path, is_Some (bucket !! path) → is_Some (b' !! path))
  ∧ (∀ series_dir series f,
       series_dir ∈ dirs →
       int (Upload.series_dir_name series_dir) = Ok series →
       f ∈ Upload.glob_dcm_sorted series_dir →
       is_Some (b' !! dest_path study series (Upload.file_name f))).
Proof.
  induction dirs as [|d rest IH]; intros acc bucket b' l Hl.
  { simpl in Hl. injection Hl as <- _. split; [done|].
    intros ? ? ? []%not_elem_of_nil. }
  rewrite upload_study_loop_cons in Hl.
  destruct (int (Upload.series_dir_name d)) as [series|e] eqn:E; [|done].
  cbv zeta in Hl. destruct (IH _ _ _ _ Hl) as [Hmono Hstored].
  destruct (upload_series_bucket series d bucket) as [Hm1 Hs1].
  split.
  - intros path Hp. by apply Hmono, Hm1.
  - intros sd s f [->|Hsd]%elem_of_cons Hs Hf.
    + rewrite E in Hs. injection Hs as <-. by apply Hmono, Hs1.
    + by eapply Hstored.
Qed.

End UploadStudy.

(** What [upload_study] returns, case by case. *)
Lemma upload_study_cases (dcmread : bytes → Result Dataset) now study_dir
    (bucket : Bucket) (db : Firestore) :
  let r := Upload.upload_study dcmread now study_dir (bucket, db) in
  (∃ e, int (Upload.study_dir_name study_dir) = Raise e
        ∧ r = ((bucket, db), Raise e))
  ∨ (∃ study, int (Upload.study_dir_name study_dir) = Ok study
              ∧ Upload.study_dir_subdirs study_dir = []
              ∧ r = ((bucket, db), Ok None))
  ∨ (∃ study b' e,
       int (Upload.study_dir_name study_dir) = Ok study
       ∧ Upload.upload_study_loop dcmread study
           (sorted (λ a b, String.leb (Upload.series_dir_name a)
                                      (Upload.series_dir_name b))
              (Upload.study_dir_subdirs study_dir)) [] bucket
         = (b', Raise e)
       ∧ r = ((b', db), Raise e))
  ∨ (∃ study b' l,
       int (Upload.study_dir_name study_dir) = Ok study
       ∧ Upload.upload_study_loop dcmread study
           (sorted (λ a b, String.leb (Upload.series_dir_name a)
                                      (Upload.series_dir_name b))
              (Upload.study_dir_subdirs study_dir)) [] bucket
         = (b', Ok l)
       ∧ r = ((b',
               document_set (pretty study)
                 {| study_id := KInt study; series := l;
                    total_series := len l;
                    total_slices := sum (slice_count <$> l);
                    upload_date := IsoTime now; status := "ready" |} db),
              Ok (Some {| study_id := KInt study; series := l;
                          total_series := len l;
                          total_slices := sum (slice_count <$> l);
                          upload_date := IsoTime now;
                          status := "ready" |}))).
Proof.
  cbv zeta. unfold Upload.upload_study.
  destruct (int (Upload.study_dir_name study_dir)) as [study|e] eqn:E;
    [|left; by exists e].
  right. destruct (Upload.study_dir_subdirs study_dir) as [|d ds] eqn:Ed;
    [left; by exists study|].
  right.
  destruct (Upload.upload_study_loop _ _ _ _ _) as [b' [l|e]] eqn:El.
  - right. by exists study, b', l.
  - left. by exists study, b', e.
Qed.

(** ** Document invariants *)

Lemma create_study_metadata_invariants
    (dcmread : bytes → Result Dataset) (bucket : Bucket) study series_dict doc :
  Sync.create_study_metadata dcmread bucket study series_dict = Ok doc →
  document_invariants doc.
Proof.
  unfold Sync.create_study_metadata. intros Hdoc.
  destruct (mapM _ series_dict) as [series_list|] eqn:Hl; [|done].
  injection Hdoc as <-. split_and!; [done|done|]. simpl.
  eapply mapM_Ok_Forall; [exact Hl|].
  intros [sid filenames] record _ Hentry.
  destruct (decide (filenames = [])) as [->|Hne]; [done|].
  destruct (series_entry_Ok dcmread bucket study sid filenames Hne)
    as (first & _ & Hok).
  rewrite Hok in Hentry. injection Hentry as <-. simpl.
  unfold len. by rewrite length_fmap, sorted_length.
Qed.

Lemma upload_study_invariants
    (dcmread : bytes → Result Dataset) now study_dir st st' doc :
  Upload.upload_study dcmread now study_dir st = (st', Ok (Some doc)) →
  document_invariants doc.
Proof.
  destruct st as [bucket db]. intros Hr.
  destruct (upload_study_cases dcmread now study_dir bucket db)
    as [(e & _ & H)|[(study & _ & _ & H)|[(study & b' & e & _ & _ & H)
       |(study & b' & l & _ & Hl & H)]]];
    rewrite H in Hr; try done.
  injection Hr as _ <-. split_and!; [done|done|]. simpl.
  eapply upload_study_loop_counts; [exact Hl|constructor].
Qed.

(** C9. Every study document produced by the reconciliation path or by
    the ingestion path satisfies the invariants of the data model:
    total_series is the length of the series list, total_slices the sum of
    the series' file counts, and the file count of every series the length
    of its files list. *)
Theorem produced_document_invariants (doc : StudyDocument) :
  produced doc → document_invariants doc.
Proof.
  intros [(dcmread & bucket & study & series_dict & H)
         |(dcmread & now & study_dir & st & st' & H)].
  - by eapply create_study_metadata_invariants.
  - by eapply upload_study_invariants.
Qed.

Lemma produced_document_invariants_witness :
  document_invariants Sample.docB.
Proof.
  apply (produced_document_invariants Sample.docB).
  left.
  exists Sample.no_header, Sample.bucketAB, (KStr "B"),
    [("1", ["b3.dcm"; "b10.dcm"; "b1.dcm"])].
  vm_compute. reflexivity.
Defined.

(** The document of the ingestion path in the sample run has them too. *)
Example ingested_document_invariants :
  ∃ doc, Sample.first_run.2 = Ok (Some doc) ∧ document_invariants doc.
Proof.
  destruct Sample.first_run as [st' [[doc|]|]] eqn:E; try by vm_compute in E.
  exists doc. split; [done|].
  exact (upload_study_invariants _ _ _ _ _ _ E).
Qed.

(** ** Skip on exists *)

(** C8. Ingestion of a study directory all of whose files already have an
    object at their destination path leaves the bucket as it is, and every
    series of the document it returns reports 0 files uploaded and all its
    files skipped. A run that returns a document leaves the study fully
    uploaded, so a second run is such a run. A single file is uploaded
    exactly when no object exists at its destination path. *)
Theorem rerun_uploads_nothing
    (dcmread : bytes → Result Dataset) (now : string)
    (study_dir : Upload.StudyDir) (bucket : Bucket) (db : Firestore) :
  let r := Upload.upload_study dcmread now study_dir (bucket, db) in
  (fully_uploaded bucket study_dir →
   r.1.1 = bucket
   ∧ ∀ doc, r.2 = Ok (Some doc) → Forall all_skipped (series doc))
  ∧ (∀ doc, r.2 = Ok (Some doc) → fully_uploaded r.1.1 study_dir)
  ∧ (∀ local path (b : Bucket),
       Upload.upload_dicom_file local path b
       = match b !! path with
         | Some _ => (b, (false, "Already exists"))
         | None =>
             (<[path := Upload.file_bytes local]> b, (true, "Uploaded"))
         end).
Proof.
  cbv zeta. split_and!.
  - intros Hfull.
    destruct (upload_study_cases dcmread now study_dir bucket db)
      as [(e & _ & ->)|[(study & _ & _ & ->)|[(study & b' & e & Hs & Hl & ->)
         |(study & b' & l & Hs & Hl & ->)]]]; simpl; try done.
    + destruct (upload_study_loop_rerun dcmread study
                  (sorted (λ a b, String.leb (Upload.series_dir_name a)
                                             (Upload.series_dir_name b))
                     (Upload.study_dir_subdirs study_dir)) [] bucket)
        as [Hb _]; [|constructor|].
      { intros sd s f Hsd. apply Hfull; [done|]. by rewrite sorted_perm in Hsd. }
      rewrite Hl in Hb. by simpl in Hb.
    + destruct (upload_study_loop_rerun dcmread study
                  (sorted (λ a b, String.leb (Upload.series_dir_name a)
                                             (Upload.series_dir_name b))
                     (Upload.study_dir_subdirs study_dir)) [] bucket)
        as [Hb Hl']; [|constructor|].
      { intros sd s f Hsd. apply Hfull; [done|]. by rewrite sorted_perm in Hsd. }
      rewrite Hl in Hb, Hl'. simpl in Hb, Hl'. split; [done|].
      intros doc [= <-]. simpl. by apply Hl'.
  - intros doc.
    destruct (upload_study_cases dcmread now study_dir bucket db)
      as [(e & _ & ->)|[(study & _ & _ & ->)|[(study & b' & e & Hs & Hl & ->)
         |(study & b' & l & Hs & Hl & ->)]]]; simpl; try done.
    intros _ study' sd s f Hs' Hsd Hi Hf.
    rewrite Hs in Hs'. injection Hs' as <-.
    destruct (upload_study_loop_stored dcmread study _ _ _ _ _ Hl) as [_ H].
    eapply H; [|done|done]. by rewrite sorted_perm.
  - intros local path b. unfold Upload.upload_dicom_file.
    destruct (b !! path) as [c|] eqn:E.
    + by rewrite bool_decide_true.
    + rewrite bool_decide_false; [done|]. by intros [? [=]].
Qed.

(** The second ingestion of the sample study: its first run is the
    hypothesis of the first part. *)
Lemma rerun_uploads_nothing_witness :
  Sample.second_run.1.1 = Sample.first_run.1.1
  ∧ ∀ doc, Sample.second_run.2 = Ok (Some doc) →
           Forall all_skipped (series doc).
Proof.
  destruct Sample.first_run as [[b1 db1] r1] eqn:E.
  pose proof (rerun_uploads_nothing Sample.no_header "2024-01-02T00:00:00"
                Sample.study7 b1 db1) as (H & _ & _).
  pose proof (rerun_uploads_nothing Sample.no_header "2024-01-01T00:00:00"
                Sample.study7 ∅ Sample.empty_db) as (_ & Hfirst & _).
  fold Sample.first_run in Hfirst. rewrite E in Hfirst. simpl in Hfirst.
  unfold Sample.second_run. rewrite E. simpl. apply H.
  destruct r1 as [[doc|]|]; try by vm_compute in E.
  by apply (Hfirst doc).
Defined.

(** The sample study, run twice: three uploads, then none; the files are in
    the order of their names as strings. *)
Example sample_first_then_second_run :
  match Sample.first_run.2, Sample.second_run.2 with
  | Ok (Some d1), Ok (Some d2) =>
      (λ s, (uploaded_count s, skipped_count s)) <$> series d1
      = [(Some 3, Some 0)]
      ∧ (λ s, (uploaded_count s, skipped_count s)) <$> series d2
        = [(Some 0, Some 3)]
      ∧ (filename <$> (series d1 ≫= files))
        = ["img1.dcm"; "img10.dcm"; "img3.dcm"]
  | _, _ => False
  end.
Proof. vm_compute. done. Qed.

(** ** The catalog scanner *)




(** ** The three loops of the apply branch *)



(** ** Applying the plan *)

Lemma storage_keys_elem (S : Sync.StorageSnapshot) k :
  k ∈ Sync.storage_keys S ↔ ∃ s, k = KStr s ∧ s ∈ dom S.
Proof. unfold Sync.storage_keys. by rewrite elem_of_map. Qed.






(** ** The two writers on the same series *)

Section TwoWriters.

Context (dcmread : bytes → Result Dataset) (bucket : Bucket) (study : Z).






End TwoWriters.





(** * Further properties *)

(** ** Paths *)

Lemma split_nonempty sep s : split sep s ≠ [].
Proof.
  destruct s as [|c r]; simpl; [done|].
  case_bool_decide; [done|]. by destruct (split sep r).
Qed.

(** Joining the segments of a path gives the path back. *)
Lemma join_split s : Builtins.join "/" (split "/" s) = s.
Proof.
  induction s as [|c r IH]; [done|].
  cbn [split]. case_bool_decide as Hc.
  - subst c. pose proof (split_nonempty "/" r) as Hne.
    destruct (split "/" r) as [|h t] eqn:E; [done|].
    change (Builtins.join "/" (EmptyString :: h :: t))
      with (String "/" (Builtins.join "/" (h :: t))).
    by rewrite IH.
  - destruct (split "/" r) as [|h [|h' t]] eqn:E.
    + by destruct (split_nonempty "/" r).
    + simpl in IH. simpl. by rewrite IH.
    + change (Builtins.join "/" (String c h :: h' :: t))
        with (String c (Builtins.join "/" (h :: h' :: t))).
      by rewrite IH.
Qed.

Lemma split_dicoms_prefix y :
  split "/" ("dicoms/" +:+ y) = "dicoms" :: split "/" y.
Proof.
  pose proof (split_nonempty "/" y) as Hne.
  change ("dicoms/" +:+ y)
    with (String "d" (String "i" (String "c" (String "o" (String "m"
            (String "s" (String "/" y))))))).
  cbn [split]. repeat (rewrite bool_decide_false by done).
  rewrite bool_decide_true by done.
  by destruct (split "/" y).
Qed.

Lemma string_of_list_ascii_app l1 l2 :
  String.string_of_list_ascii (l1 ++ l2)
  = String.string_of_list_ascii l1 +:+ String.string_of_list_ascii l2.
Proof. induction l1 as [|c l1 IH]; simpl; [done|]. by rewrite IH. Qed.

Lemma startswith_inv s p : startswith s p = true → ∃ y, s = p +:+ y.
Proof.
  unfold startswith. intros [k Hk]%bool_decide_eq_true.
  exists (String.string_of_list_ascii k).
  rewrite <-(String.string_of_list_ascii_of_string s), Hk.
  by rewrite string_of_list_ascii_app, String.string_of_list_ascii_of_string.
Qed.

(** A listed path of four segments under the prefix is the path the
    builder downloads from. *)
Lemma listed_path_shape blob root study series name :
  startswith blob "dicoms/" = true →
  split "/" blob = [root; study; series; name] →
  blob = "dicoms/" +:+ study +:+ "/" +:+ series +:+ "/" +:+ name.
Proof.
  intros [y ->]%startswith_inv Hsplit.
  rewrite split_dicoms_prefix in Hsplit. injection Hsplit as <- Hy.
  rewrite <-(join_split y), Hy. reflexivity.
Qed.

(** ** The storage scanner, completely *)

Lemma dict_get_set {V} k k' (v : V) d :
  Dict.get k' (Dict.set k v d)
  = if bool_decide (k = k') then Some v else Dict.get k' d.
Proof.
  induction d as [|[k0 v0] r IH]; simpl.
  - destruct (decide (k = k')) as [->|Hne].
    + by rewrite !bool_decide_true.
    + by rewrite !bool_decide_false.
  - destruct (decide (k0 = k)) as [->|Hne0].
    + rewrite (bool_decide_true (k = k)) by done. simpl.
      destruct (decide (k = k')) as [->|Hne];
        [by rewrite !bool_decide_true|by rewrite !bool_decide_false].
    + rewrite (bool_decide_false (k0 = k)) by done. simpl. rewrite IH.
      destruct (decide (k0 = k')) as [->|Hne'].
      * rewrite (bool_decide_true (k' = k')) by done.
        by rewrite (bool_decide_false (k = k')) by done.
      * by rewrite (bool_decide_false (k0 = k')) by done.
Qed.

Lemma add_blob_files S blob study series :
  files_of (Sync.add_blob S blob) study series
  = files_of S study series ++ option_list (recognized study series blob).
Proof.
  unfold Sync.add_blob, recognized.
  destruct (split "/" blob) as [|root [|s [|ser [|f [|? ?]]]]];
    try by rewrite app_nil_r.
  destruct (endswith f ".dcm"); simpl; [|by rewrite app_nil_r].
  unfold files_of.
  destruct (decide (s = study)) as [->|Hs].
  - rewrite lookup_insert_eq, (bool_decide_true (study = study)) by done.
    simpl. rewrite dict_get_set.
    destruct (decide (ser = series)) as [->|Hser].
    + rewrite !bool_decide_true by done. simpl.
      by destruct (S !! study) as [sd|].
    + rewrite !bool_decide_false by done. simpl. rewrite app_nil_r.
      by destruct (S !! study) as [sd|].
  - rewrite lookup_insert_ne, (bool_decide_false (s = study)) by done.
    simpl. by rewrite app_nil_r.
Qed.

Lemma fold_blobs_files blobs : ∀ S study series,
  files_of (foldl Sync.add_blob S blobs) study series
  = files_of S study series ++ omap (recognized study series) blobs.
Proof.
  induction blobs as [|b r IH]; intros S study series; simpl.
  { by rewrite app_nil_r. }
  rewrite IH, add_blob_files, <-app_assoc. f_equal.
  by destruct (recognized study series b).
Qed.

(** X1. The scanner keeps, for every study and series, exactly the file
    names of the listed paths it recognizes (four segments, the extension),
    in the order of the listing and as often as they are listed; a series
    is in the snapshot exactly when one listed path is recognized for it. *)
Theorem scanner_lists_recognized_blobs (blobs : list string)
    (study series : string) :
  files_of (Sync.group_blobs blobs) study series
  = omap (recognized study series) blobs
  ∧ (is_Some (Sync.group_blobs blobs !! study ≫= Dict.get series)
     ↔ omap (recognized study series) blobs ≠ []).
Proof.
  assert (files_of (Sync.group_blobs blobs) study series
          = omap (recognized study series) blobs) as Hfiles.
  { unfold Sync.group_blobs. rewrite fold_blobs_files. unfold files_of.
    by rewrite lookup_empty. }
  split; [done|]. rewrite <-Hfiles. unfold files_of. split.
  - intros [fns Hfns]. rewrite Hfns. simpl.
    destruct (Sync.group_blobs blobs !! study) as [sd|] eqn:Hsd; [|done].
    simpl in Hfns.
    destruct (group_blobs_nondegenerate blobs _ _ Hsd) as (_ & _ & H).
    by destruct (H series fns (dict_get_elem _ _ _ Hfns)).
  - by destruct (_ ≫= _).
Qed.

(** X2. Every file of a snapshot of the scanner has an object in the
    bucket under the path the builder downloads it from: within a
    reconciliation run no download fails for a missing object. *)
Theorem scanned_files_exist (bucket : Bucket) (study : string)
    (series_dict : Dict.t (list string)) (series : string)
    (filenames : list string) (name : string) :
  Sync.get_storage_studies bucket !! study = Some series_dict →
  (series, filenames) ∈ series_dict →
  name ∈ filenames →
  ∃ content,
    download_as_bytes
      ("dicoms/" +:+ str (KStr study) +:+ "/" +:+ series +:+ "/" +:+ name)
      bucket
    = Ok content.
Proof.
  intros HS Hser Hname.
  destruct (group_blobs_nondegenerate (list_blobs "dicoms/" bucket) _ _ HS)
    as (_ & _ & H).
  destruct (H _ _ Hser) as [_ Hfiles].
  destruct (Hfiles _ Hname) as (_ & blob & root & Hblob & Hsplit).
  unfold list_blobs in Hblob.
  apply list_elem_of_filter in Hblob as [Hprefix Hin].
  apply list_elem_of_fmap in Hin as ([path content] & -> & Hin).
  apply elem_of_map_to_list in Hin. simpl in *.
  rewrite (listed_path_shape _ _ _ _ _ Hprefix Hsplit) in Hin.
  exists content. unfold download_as_bytes. simpl. by rewrite Hin.
Qed.

Lemma scanned_files_exist_witness :
  ∃ content,
    download_as_bytes
      ("dicoms/" +:+ str (KStr "B") +:+ "/" +:+ "1" +:+ "/" +:+ "b10.dcm")
      Sample.bucketAB
    = Ok content.
Proof.
  apply (scanned_files_exist Sample.bucketAB "B"
           [("1", ["b3.dcm"; "b1.dcm"; "b10.dcm"])] "1"
           ["b3.dcm"; "b1.dcm"; "b10.dcm"] "b10.dcm").
  - vm_compute. reflexivity.
  - apply list_elem_of_here.
  - do 2 apply list_elem_of_further. apply list_elem_of_here.
Defined.

(** ** The catalog scanner, completely *)

Lemma snapshot_fold_dom (l : list (string * StudyDocument)) :
  ∀ acc : Sync.CatalogSnapshot,
  dom (foldl (λ firestore_studies doc,
                <[study_id doc.2 := (doc.1, doc.2)]> firestore_studies) acc l)
  = dom acc ∪ list_to_set ((λ doc, study_id doc.2) <$> l).
Proof.
  induction l as [|a r IH]; intros acc; simpl.
  { set_solver. }
  rewrite IH, dom_insert_L. set_solver.
Qed.

Lemma snapshot_fold_sound (all l : list (string * StudyDocument)) :
  ∀ acc : Sync.CatalogSnapshot,
  l ⊆ all →
  (∀ k p, acc !! k = Some p → p ∈ all ∧ study_id p.2 = k) →
  ∀ k p,
    foldl (λ firestore_studies doc,
             <[study_id doc.2 := (doc.1, doc.2)]> firestore_studies) acc l
      !! k = Some p →
    p ∈ all ∧ study_id p.2 = k.
Proof.
  induction l as [|a r IH]; intros acc Hl Hacc; simpl; [done|].
  apply IH; [set_solver|]. intros k p.
  destruct (decide (study_id a.2 = k)) as [<-|Hne].
  - rewrite lookup_insert_eq. intros [= <-]. destruct a. simpl.
    split; [|done]. apply Hl, list_elem_of_here.
  - rewrite lookup_insert_ne by done. apply Hacc.
Qed.

Lemma size_list_to_set_le (l : list Key) :
  (size (list_to_set l : gset Key) ≤ length l)%nat.
Proof.
  induction l as [|x r IH].
  - rewrite list_to_set_nil, size_empty. done.
  - rewrite list_to_set_cons, size_union_alt, size_singleton.
    assert (list_to_set r ∖ {[x]} ⊆ (list_to_set r : gset Key)) as Hsub
      by set_solver.
    apply subseteq_size in Hsub. simpl. lia.
Qed.


Lemma snapshot_has_study_id (db : Firestore) doc_id data :
  docs db !! doc_id = Some data →
  study_id data ∈ dom (Sync.get_firestore_studies db).
Proof.
  intros Hd. unfold Sync.get_firestore_studies, stream.
  rewrite snapshot_fold_dom.
  apply elem_of_union_r, elem_of_list_to_set, list_elem_of_fmap.
  exists (doc_id, data). split; [done|]. by apply elem_of_map_to_list.
Qed.

(** X3. The catalog snapshot has one entry for each study_id that occurs
    in the catalog, and each entry is a document of the catalog that carries
    that study_id, with its document key; documents that share a study_id
    are merged, so the snapshot is never larger than the catalog. *)
Theorem catalog_snapshot_sound (db : Firestore) :
  let C := Sync.get_firestore_studies db in
  dom C = list_to_set ((λ doc, study_id doc.2) <$> map_to_list (docs db))
  ∧ (∀ k doc_id data,
       C !! k = Some (doc_id, data) →
       docs db !! doc_id = Some data ∧ study_id data = k)
  ∧ (∀ doc_id data,
       docs db !! doc_id = Some data → study_id data ∈ dom C)
  ∧ (size C ≤ size (docs db))%nat.
Proof.
  cbv zeta. unfold Sync.get_firestore_studies, stream.
  assert (dom (foldl (λ firestore_studies doc,
                        <[study_id doc.2 := (doc.1, doc.2)]> firestore_studies)
                 (∅ : Sync.CatalogSnapshot) (map_to_list (docs db)))
          = list_to_set ((λ doc, study_id doc.2) <$> map_to_list (docs db)))
    as Hdom.
  { rewrite snapshot_fold_dom. set_solver. }
  split_and!.
  - exact Hdom.
  - intros k doc_id data Hk.
    destruct (snapshot_fold_sound (map_to_list (docs db))
                (map_to_list (docs db)) ∅) with (k := k) (p := (doc_id, data))
      as [Hin Hid]; [done| |done|].
    { intros ? ?. by rewrite lookup_empty. }
    split; [|done]. by apply elem_of_map_to_list in Hin.
  - intros doc_id data Hd. rewrite Hdom.
    apply elem_of_list_to_set, list_elem_of_fmap.
    exists (doc_id, data). split; [done|]. by apply elem_of_map_to_list.
  - rewrite <-size_dom, Hdom, <-length_map_to_list.
    etransitivity; [apply size_list_to_set_le|]. by rewrite length_fmap.
Qed.

(** ** The document mirrors the series map *)

Lemma mapM_Ok_Forall2 {A B} (f : A → Result B) l ys :
  mapM f l = Ok ys → Forall2 (λ x y, f x = Ok y) l ys.
Proof.
  revert ys. induction l as [|a r IH]; intros ys Hm; simpl in Hm.
  { injection Hm as <-. constructor. }
  destruct (f a) as [b|] eqn:Ea; [|done]. simpl in Hm.
  destruct (mapM f r) as [bs|] eqn:Er; [|done]. injection Hm as <-.
  constructor; [done|]. by apply IH.
Qed.

Lemma Forall2_fmap_eq {A B C} (f : A → C) (g : B → C) (l : list A)
    (k : list B) :
  Forall2 (λ x y, f x = g y) l k → f <$> l = g <$> k.
Proof. induction 1; csimpl; congruence. Qed.

Lemma builder_mirror
    (dcmread : bytes → Result Dataset) (bucket : Bucket) (k : Key)
    (series_dict : Dict.t (list string)) (doc : StudyDocument) :
  Sync.create_study_metadata dcmread bucket k series_dict = Ok doc →
  study_id doc = KStr (str k)
  ∧ status doc = "ready"
  ∧ series_id <$> series doc = KStr <$> series_dict.*1
  ∧ slice_count <$> series doc = len <$> series_dict.*2
  ∧ storage_path <$> series doc
    = (λ s, "dicoms/" +:+ str k +:+ "/" +:+ s +:+ "/") <$> series_dict.*1
  ∧ total_series doc = len series_dict
  ∧ total_slices doc = sum (len <$> series_dict.*2).
Proof.
  unfold Sync.create_study_metadata. intros Hdoc.
  destruct (mapM _ series_dict) as [series_list|] eqn:Hl; [|done].
  injection Hdoc as <-. simpl.
  apply mapM_Ok_Forall2 in Hl.
  assert (Forall2 (λ item record,
            series_id record = KStr item.1
            ∧ slice_count record = len item.2
            ∧ storage_path record
              = "dicoms/" +:+ str k +:+ "/" +:+ item.1 +:+ "/")
            series_dict series_list) as Hall.
  { eapply Forall2_impl; [exact Hl|]. intros [sid filenames] record Hentry.
    destruct (decide (filenames = [])) as [->|Hne]; [done|].
    destruct (series_entry_Ok dcmread bucket k sid filenames Hne)
      as (first & _ & Hok).
    rewrite Hok in Hentry. by injection Hentry as <-. }
  assert (series_id <$> series_list = KStr <$> series_dict.*1) as H1.
  { rewrite <-list_fmap_compose. symmetry. apply Forall2_fmap_eq.
    eapply Forall2_impl; [exact Hall|]. by intros ? ? (-> & _). }
  assert (slice_count <$> series_list = len <$> series_dict.*2) as H2.
  { rewrite <-list_fmap_compose. symmetry. apply Forall2_fmap_eq.
    eapply Forall2_impl; [exact Hall|]. by intros ? ? (_ & -> & _). }
  assert (storage_path <$> series_list
          = (λ s, "dicoms/" +:+ str k +:+ "/" +:+ s +:+ "/")
            <$> series_dict.*1) as H3.
  { rewrite <-list_fmap_compose. symmetry. apply Forall2_fmap_eq.
    eapply Forall2_impl; [exact Hall|]. by intros ? ? (_ & _ & ->). }
  split_and!; try done.
  - unfold len. by rewrite (Forall2_length _ _ _ Hl).
  - by rewrite H2.
Qed.


(** X4. The document the reconciliation path builds mirrors the series
    map it is given: the study identifier as a string, one series record for
    each entry and in the order of the map, with the series identifier, the
    number of file names of the entry as file count and the storage path of
    the series; total_slices is the number of file names of the whole map. *)
Theorem document_mirrors_series_map
    (dcmread : bytes → Result Dataset) (bucket : Bucket) (k : Key)
    (series_dict : Dict.t (list string)) (doc : StudyDocument) :
  Sync.create_study_metadata dcmread bucket k series_dict = Ok doc →
  study_id doc = KStr (str k)
  ∧ status doc = "ready"
  ∧ series_id <$> series doc = KStr <$> series_dict.*1
  ∧ slice_count <$> series doc = len <$> series_dict.*2
  ∧ storage_path <$> series doc
    = (λ s, "dicoms/" +:+ str k +:+ "/" +:+ s +:+ "/") <$> series_dict.*1
  ∧ total_series doc = len series_dict
  ∧ total_slices doc = sum (len <$> series_dict.*2).
Proof. apply builder_mirror. Qed.

Lemma document_mirrors_series_map_witness :
  study_id Sample.docB = KStr (str (KStr "B"))
  ∧ status Sample.docB = "ready"
  ∧ series_id <$> series Sample.docB
    = KStr <$> [("1", ["b3.dcm"; "b10.dcm"; "b1.dcm"])].*1
  ∧ slice_count <$> series Sample.docB
    = len <$> [("1", ["b3.dcm"; "b10.dcm"; "b1.dcm"])].*2
  ∧ storage_path <$> series Sample.docB
    = (λ s, "dicoms/" +:+ str (KStr "B") +:+ "/" +:+ s +:+ "/")
      <$> [("1", ["b3.dcm"; "b10.dcm"; "b1.dcm"])].*1
  ∧ total_series Sample.docB = len [("1", ["b3.dcm"; "b10.dcm"; "b1.dcm"])]
  ∧ total_slices Sample.docB
    = sum (len <$> [("1", ["b3.dcm"; "b10.dcm"; "b1.dcm"])].*2).
Proof.
  apply (document_mirrors_series_map Sample.no_header Sample.bucketAB
           (KStr "B") [("1", ["b3.dcm"; "b10.dcm"; "b1.dcm"])] Sample.docB).
  vm_compute. reflexivity.
Defined.

(** ** The apply branch, completely *)











(** ** A second run *)




(** ** The description of a series *)



(** ** Uploads never overwrite *)

Section UploadFrame.

Context (dcmread : bytes → Result Dataset) (study : Z).

Lemma step_frame series st f :
  let st' := Upload.upload_series_step dcmread study series st f in
  Upload.l_bucket st ⊆ Upload.l_bucket st'
  ∧ (∀ path content,
       Upload.l_bucket st' !! path = Some content →
       Upload.l_bucket st !! path = Some content
       ∨ (path = dest_path study series (Upload.file_name f)
          ∧ content = Upload.file_bytes f))
  ∧ Upload.l_uploaded_count st' + Upload.l_skipped_count st'
    = Upload.l_uploaded_count st + Upload.l_skipped_count st + 1
  ∧ Upload.l_uploaded_count st ≤ Upload.l_uploaded_count st'
  ∧ Upload.l_skipped_count st ≤ Upload.l_skipped_count st'
  ∧ Z.of_nat (size (Upload.l_bucket st'))
    = Z.of_nat (size (Upload.l_bucket st))
      + (Upload.l_uploaded_count st' - Upload.l_uploaded_count st).
Proof.
  cbv zeta. unfold Upload.upload_series_step.
  fold (dest_path study series (Upload.file_name f)).
  destruct (Upload.l_bucket st !! dest_path study series (Upload.file_name f))
    as [b|] eqn:E.
  - rewrite upload_dicom_file_exists by by rewrite E. simpl.
    split_and!; [done|by left|lia|lia|lia|lia].
  - rewrite upload_dicom_file_new by done. simpl.
    split_and!; [by apply insert_subseteq| |lia|lia|lia|].
    + intros path content.
      destruct (decide (dest_path study series (Upload.file_name f) = path))
        as [<-|Hne].
      * rewrite lookup_insert_eq. intros [= <-]. by right.
      * rewrite lookup_insert_ne by done. by left.
    + rewrite map_size_insert_None by done. lia.
Qed.

Lemma loop_frame series l : ∀ st,
  let st' := foldl (Upload.upload_series_step dcmread study series) st l in
  Upload.l_bucket st ⊆ Upload.l_bucket st'
  ∧ (∀ path content,
       Upload.l_bucket st' !! path = Some content →
       Upload.l_bucket st !! path = Some content
       ∨ ∃ f, f ∈ l
              ∧ path = dest_path study series (Upload.file_name f)
              ∧ content = Upload.file_bytes f)
  ∧ Upload.l_uploaded_count st' + Upload.l_skipped_count st'
    = Upload.l_uploaded_count st + Upload.l_skipped_count st + len l
  ∧ Upload.l_uploaded_count st ≤ Upload.l_uploaded_count st'
  ∧ Upload.l_skipped_count st ≤ Upload.l_skipped_count st'
  ∧ Z.of_nat (size (Upload.l_bucket st'))
    = Z.of_nat (size (Upload.l_bucket st))
      + (Upload.l_uploaded_count st' - Upload.l_uploaded_count st).
Proof.
  induction l as [|f r IH]; intros st; cbv zeta.
  { unfold len. simpl. split_and!; [done|by left|lia|lia|lia|lia]. }
  simpl foldl.
  destruct (step_frame series st f) as (S1 & N1 & C1 & U1 & K1 & Z1).
  destruct (IH (Upload.upload_series_step dcmread study series st f))
    as (S2 & N2 & C2 & U2 & K2 & Z2).
  split_and!.
  - by etransitivity.
  - intros path content H.
    destruct (N2 _ _ H) as [H'|(g & Hg & -> & ->)].
    + destruct (N1 _ _ H') as [?|[-> ->]]; [by left|].
      right. exists f. split; [apply list_elem_of_here|done].
    + right. exists g. split; [by apply list_elem_of_further|done].
  - unfold len in *. simpl length. lia.
  - lia.
  - lia.
  - lia.
Qed.

End UploadFrame.

Lemma sum_from (l : list Z) : ∀ acc, foldl Z.add acc l = acc + sum l.
Proof.
  unfold sum. induction l as [|x r IH]; intros acc; cbn [foldl]; [lia|].
  rewrite (IH (acc + x)), (IH (0 + x)). lia.
Qed.

Lemma sum_snoc (l : list Z) x : sum (l ++ [x]) = sum l + x.
Proof. unfold sum. rewrite foldl_app. simpl. done. Qed.

Section UploadStudyFrame.

Context (dcmread : bytes → Result Dataset) (study : Z).

Lemma upload_series_frame series series_dir (bucket : Bucket) :
  let r := Upload.upload_series dcmread study series series_dir bucket in
  bucket ⊆ r.1
  ∧ (∀ path content,
       r.1 !! path = Some content →
       bucket !! path = Some content
       ∨ ∃ f, f ∈ Upload.glob_dcm_sorted series_dir
              ∧ path = dest_path study series (Upload.file_name f)
              ∧ content = Upload.file_bytes f)
  ∧ Z.of_nat (size r.1)
    = Z.of_nat (size bucket) + from_option uploaded_of 0 r.2
  ∧ (∀ record, r.2 = Some record → counts_add_up record).
Proof.
  cbv zeta.
  destruct (decide (Upload.glob_dcm_sorted series_dir = [])) as [E|E].
  - rewrite upload_series_None by done. simpl.
    split_and!; [done|by left|lia|done].
  - destruct (upload_series_Some dcmread study series series_dir bucket E)
      as (record & -> & _ & Hc & _ & Hu & Hs). simpl.
    destruct (loop_frame dcmread study series
                (Upload.glob_dcm_sorted series_dir)
                {| Upload.l_bucket := bucket; Upload.l_uploaded_count := 0;
                   Upload.l_skipped_count := 0; Upload.l_file_list := [] |})
      as (S1 & N1 & C1 & U1 & K1 & Z1). simpl in *.
    unfold uploaded_of. rewrite Hu. simpl.
    split_and!; [done|done|lia|].
    intros ? [= <-]. unfold counts_add_up, uploaded_of, skipped_of.
    rewrite Hu, Hs, Hc. simpl. lia.
Qed.

Lemma upload_study_loop_frame dirs : ∀ acc (bucket : Bucket),
  let r := Upload.upload_study_loop dcmread study dirs acc bucket in
  bucket ⊆ r.1
  ∧ (∀ path content,
       r.1 !! path = Some content →
       bucket !! path = Some content
       ∨ ∃ series_dir series f,
           series_dir ∈ dirs
           ∧ int (Upload.series_dir_name series_dir) = Ok series
           ∧ f ∈ Upload.glob_dcm_sorted series_dir
           ∧ path = dest_path study series (Upload.file_name f)
           ∧ content = Upload.file_bytes f)
  ∧ (∀ l, r.2 = Ok l →
          (Forall counts_add_up acc → Forall counts_add_up l)
          ∧ Z.of_nat (size r.1) + sum (uploaded_of <$> acc)
            = Z.of_nat (size bucket) + sum (uploaded_of <$> l)).
Proof.
  induction dirs as [|d rest IH]; intros acc bucket; cbv zeta.
  { simpl. split_and!; [done|by left|]. intros l [= <-]. split; [done|lia]. }
  rewrite upload_study_loop_cons.
  destruct (int (Upload.series_dir_name d)) as [series|e] eqn:E.
  2:{ simpl. split_and!; [done|by left|done]. }
  cbv zeta.
  destruct (upload_series_frame series d bucket) as (S1 & N1 & Z1 & C1).
  destruct (Upload.upload_series dcmread study series d bucket)
    as [b1 info] eqn:Eu. simpl in *.
  destruct (IH (match info with Some i => acc ++ [i] | None => acc end) b1)
    as (S2 & N2 & R2).
  split_and!.
  - by etransitivity.
  - intros path content H.
    destruct (N2 _ _ H) as [H'|(sd & s & f & Hsd & Hs & Hf & -> & ->)].
    + destruct (N1 _ _ H') as [?|(f & Hf & -> & ->)]; [by left|].
      right. exists d, series, f.
      split_and!; [apply list_elem_of_here|done|done|done|done].
    + right. exists sd, s, f.
      split_and!; [by apply list_elem_of_further|done|done|done|done].
  - intros l Hl. destruct (R2 l Hl) as [F2 Z2]. split.
    + intros Hacc. apply F2. destruct info as [i|]; [|done].
      apply Forall_app. split; [done|]. constructor; [by apply C1|done].
    + destruct info as [i|]; simpl in Z1.
      * rewrite fmap_app in Z2.
        change (uploaded_of <$> [i]) with [uploaded_of i] in Z2.
        rewrite sum_snoc in Z2. lia.
      * lia.
Qed.

End UploadStudyFrame.

(** X10. Ingestion of a study never overwrites or removes an object: every
    object of the bucket is still there with the same content afterwards,
    also when the study fails, and every object that was added holds the
    bytes of one of the local files of the study under the destination path
    of that file. *)
Theorem upload_keeps_existing_objects
    (dcmread : bytes → Result Dataset) (now : string)
    (study_dir : Upload.StudyDir) (bucket : Bucket) (db : Firestore) :
  let r := Upload.upload_study dcmread now study_dir (bucket, db) in
  bucket ⊆ r.1.1
  ∧ ∀ path content,
      r.1.1 !! path = Some content →
      bucket !! path = Some content
      ∨ ∃ study series_dir series f,
          int (Upload.study_dir_name study_dir) = Ok study
          ∧ series_dir ∈ Upload.study_dir_subdirs study_dir
          ∧ int (Upload.series_dir_name series_dir) = Ok series
          ∧ f ∈ Upload.glob_dcm_sorted series_dir
          ∧ path = dest_path study series (Upload.file_name f)
          ∧ content = Upload.file_bytes f.
Proof.
  cbv zeta.
  destruct (upload_study_cases dcmread now study_dir bucket db)
    as [(e & _ & ->)|[(study & _ & _ & ->)|[(study & b' & e & Hs & Hl & ->)
       |(study & b' & l & Hs & Hl & ->)]]]; simpl;
    try (split; [done|by left]).
  all: destruct (upload_study_loop_frame dcmread study
                   (sorted (λ a b, String.leb (Upload.series_dir_name a)
                                              (Upload.series_dir_name b))
                      (Upload.study_dir_subdirs study_dir)) [] bucket)
         as (S1 & N1 & _).
  all: rewrite Hl in S1, N1; simpl in S1, N1.
  all: split; [done|].
  all: intros path content H.
  all: destruct (N1 _ _ H) as [?|(sd & s & f & Hsd & Hi & Hf & -> & ->)];
         [by left|].
  all: right; exists study, sd, s, f.
  all: split_and!; try done.
  all: by rewrite sorted_perm in Hsd.
Qed.

(** X11. In the document ingestion returns for a study, the uploaded and
    skipped counts of every series are not negative and add up to its file
    count, and the bucket has grown by exactly the number of files reported
    as uploaded. *)
Theorem upload_counts_add_up
    (dcmread : bytes → Result Dataset) (now : string)
    (study_dir : Upload.StudyDir) (bucket : Bucket) (db : Firestore)
    (st' : Bucket * Firestore) (doc : StudyDocument) :
  Upload.upload_study dcmread now study_dir (bucket, db)
  = (st', Ok (Some doc)) →
  Forall (λ record,
            uploaded_of record + skipped_of record = slice_count record
            ∧ 0 ≤ uploaded_of record ∧ 0 ≤ skipped_of record)
    (series doc)
  ∧ Z.of_nat (size st'.1)
    = Z.of_nat (size bucket) + sum (uploaded_of <$> series doc).
Proof.
  intros Hr.
  destruct (upload_study_cases dcmread now study_dir bucket db)
    as [(e & _ & H)|[(study & _ & _ & H)|[(study & b' & e & _ & _ & H)
       |(study & b' & l & _ & Hl & H)]]];
    rewrite H in Hr; try done.
  injection Hr as <- <-. simpl.
  destruct (upload_study_loop_frame dcmread study
              (sorted (λ a b, String.leb (Upload.series_dir_name a)
                                         (Upload.series_dir_name b))
                 (Upload.study_dir_subdirs study_dir)) [] bucket)
    as (_ & _ & R).
  rewrite Hl in R. simpl in R. destruct (R l eq_refl) as [F Z].
  split; [by apply F|]. simpl in Z. unfold sum in Z at 1. simpl in Z. lia.
Qed.

Lemma upload_counts_add_up_witness :
  Forall (λ record,
            uploaded_of record + skipped_of record = slice_count record
            ∧ 0 ≤ uploaded_of record ∧ 0 ≤ skipped_of record)
    (series (match Sample.first_run.2 with
             | Ok (Some doc) => doc
             | _ => Sample.stub KNone
             end))
  ∧ Z.of_nat (size Sample.first_run.1.1)
    = Z.of_nat (size (∅ : Bucket))
      + sum (uploaded_of
               <$> series (match Sample.first_run.2 with
                           | Ok (Some doc) => doc
                           | _ => Sample.stub KNone
                           end)).
Proof.
  apply (upload_counts_add_up Sample.no_header "2024-01-01T00:00:00"
           Sample.study7 ∅ Sample.empty_db Sample.first_run.1).
  vm_compute. reflexivity.
Defined.


(** ** The order of names *)



(** Insertion into a list in order keeps it in order, for a total and
    transitive comparison. *)
Section SortedBy.

Context {A : Type} (le : A → A → bool).
Hypothesis le_total : ∀ a b, le a b = true ∨ le b a = true.
Hypothesis le_trans : ∀ a b c, le a b = true → le b c = true → le a c = true.



End SortedBy.



(** ** Ingestion and the catalog *)

(** X13. Ingestion of a study touches the catalog only when it returns a
    document: then it has written exactly that document, once, under the
    study number in decimal, and the document carries the number as an
    integer, the time read from the clock and the status ready. A study
    whose directory name is not an integer, that has no series directory,
    or that fails on a series leaves the catalog as it was. *)
Theorem upload_study_catalog_effect
    (dcmread : bytes → Result Dataset) (now : string)
    (study_dir : Upload.StudyDir) (bucket : Bucket) (db : Firestore) :
  let r := Upload.upload_study dcmread now study_dir (bucket, db) in
  match r.2 with
  | Ok (Some doc) =>
      ∃ study,
        int (Upload.study_dir_name study_dir) = Ok study
        ∧ Upload.study_dir_subdirs study_dir ≠ []
        ∧ study_id doc = KInt study
        ∧ upload_date doc = IsoTime now
        ∧ status doc = "ready"
        ∧ docs r.1.2 = <[pretty study := doc]> (docs db)
        ∧ mutations r.1.2 = mutations db ++ [DocSet (pretty study) doc]
  | Ok None =>
      r.1 = (bucket, db) ∧ Upload.study_dir_subdirs study_dir = []
  | Raise e =>
      r.1.2 = db
      ∧ (int (Upload.study_dir_name study_dir) = Raise e → r.1.1 = bucket)
  end.
Proof.
  cbv zeta.
  destruct (upload_study_cases dcmread now study_dir bucket db)
    as [(e & He & H)|[(study & _ & Hd & H)|[(study & b' & e & Hs & Hl & H)
       |(study & b' & l & Hs & Hl & H)]]].
  - by rewrite H.
  - by rewrite H.
  - rewrite H. simpl. split; [done|]. by rewrite Hs.
  - assert (Upload.study_dir_subdirs study_dir ≠ []) as Hne.
    { intros E. pose proof H as H'. unfold Upload.upload_study in H'.
      by rewrite Hs, E in H'. }
    rewrite H. simpl. exists study. split_and!; done.
Qed.

(** X14. The document ingestion writes for a study carries the study
    number as an integer, while the studies of a storage snapshot are named
    by strings: on the next scan the reconciliation counts that document as
    orphaned, never as existing. *)
Theorem ingested_document_is_orphaned
    (dcmread : bytes → Result Dataset) (now : string)
    (study_dir : Upload.StudyDir) (bucket : Bucket) (db : Firestore)
    (st' : Bucket * Firestore) (doc : StudyDocument) :
  Upload.upload_study dcmread now study_dir (bucket, db)
  = (st', Ok (Some doc)) →
  let S := Sync.get_storage_studies st'.1 in
  let C := Sync.get_firestore_studies st'.2 in
  study_id doc ∈ Sync.orphaned_studies S C
  ∧ study_id doc ∉ Sync.existing_studies S C.
Proof.
  intros Hr. cbv zeta.
  destruct (upload_study_cases dcmread now study_dir bucket db)
    as [(e & _ & H)|[(study & _ & _ & H)|[(study & b' & e & _ & _ & H)
       |(study & b' & l & _ & Hl & H)]]];
    rewrite H in Hr; try done.
  injection Hr as <- <-. simpl.
  assert (KInt study ∉ Sync.storage_keys (Sync.get_storage_studies b'))
    as Hout.
  { by intros (s & [=] & _)%storage_keys_elem. }
  unfold Sync.orphaned_studies, Sync.existing_studies. split; [|set_solver].
  apply elem_of_difference. split; [|done].
  unfold Sync.catalog_keys.
  match goal with
  | |- _ ∈ dom (Sync.get_firestore_studies (document_set ?k ?d ?db0)) =>
      apply (snapshot_has_study_id (document_set k d db0) k d)
  end.
  simpl. by rewrite lookup_insert_eq.
Qed.

Lemma ingested_document_is_orphaned_witness :
  KInt 7
  ∈ Sync.orphaned_studies (Sync.get_storage_studies Sample.first_run.1.1)
      (Sync.get_firestore_studies Sample.first_run.1.2)
  ∧ KInt 7
    ∉ Sync.existing_studies (Sync.get_storage_studies Sample.first_run.1.1)
        (Sync.get_firestore_studies Sample.first_run.1.2).
Proof.
  apply (ingested_document_is_orphaned Sample.no_header "2024-01-01T00:00:00"
           Sample.study7 ∅ Sample.empty_db Sample.first_run.1
           {| study_id := KInt 7;
              series :=
                match Sample.first_run.2 with
                | Ok (Some doc) => series doc
                | _ => []
                end;
              total_series := 1; total_slices := 3;
              upload_date := IsoTime "2024-01-01T00:00:00";
              status := "ready" |}).
  vm_compute. reflexivity.
Defined.

(** ** From ingestion to the scanner *)

Lemma list_ascii_of_string_app a b :
  String.list_ascii_of_string (a +:+ b)
  = String.list_ascii_of_string a ++ String.list_ascii_of_string b.
Proof.
  induction a as [|c a IH]; [done|].
  change (String c a +:+ b) with (String c (a +:+ b)). simpl. by rewrite IH.
Qed.

Lemma split_free sep a : free_of sep a → split sep a = [a].
Proof.
  unfold free_of. induction a as [|c a IH]; [done|]. simpl.
  rewrite not_elem_of_cons. intros [Hc Ha].
  rewrite bool_decide_false by done. by rewrite IH.
Qed.

Lemma split_free_app sep a b :
  free_of sep a → split sep (a +:+ String sep b) = a :: split sep b.
Proof.
  unfold free_of. induction a as [|c a IH].
  - intros _. change (EmptyString +:+ String sep b) with (String sep b).
    simpl. by rewrite bool_decide_true.
  - simpl. rewrite not_elem_of_cons. intros [Hc Ha].
    change (String c a +:+ String sep b) with (String c (a +:+ String sep b)).
    simpl. rewrite bool_decide_false by done. by rewrite IH.
Qed.

Lemma pretty_N_go_chars (P : ascii → Prop) :
  (∀ n, P (pretty_N_char n)) →
  ∀ x s, Forall P (String.list_ascii_of_string s) →
         Forall P (String.list_ascii_of_string (pretty_N_go x s)).
Proof.
  intros HP x. induction (N.lt_wf_0 x) as [x _ IH]. intros s Hs.
  destruct (decide (0 < x)%N) as [Hx|Hx].
  - rewrite pretty_N_go_step by done. apply IH.
    + apply N.div_lt; lia.
    + simpl. by constructor.
  - assert (x = 0%N) as -> by lia. by rewrite pretty_N_go_0.
Qed.

Lemma pretty_N_chars (P : ascii → Prop) (n : N) :
  (∀ n, P (pretty_N_char n)) →
  Forall P (String.list_ascii_of_string (pretty n)).
Proof.
  intros HP. unfold pretty, pretty_N. case_decide.
  - simpl. constructor; [apply (HP 0%N)|constructor].
  - apply pretty_N_go_chars; [done|constructor].
Qed.

Lemma pretty_Z_free (z : Z) : free_of "/" (pretty z).
Proof.
  assert (∀ n, pretty_N_char n ≠ "/"%char) as HP.
  { intros n. unfold pretty_N_char. by repeat case_match. }
  assert (Forall (λ c, c ≠ "/"%char)
            (String.list_ascii_of_string (pretty z))) as Hall.
  { destruct z as [|p|p].
    - simpl. by repeat constructor.
    - by apply (pretty_N_chars (λ c, c ≠ "/"%char) (N.pos p)).
    - change (pretty (Z.neg p)) with ("-" +:+ pretty (N.pos p)).
      rewrite list_ascii_of_string_app. apply Forall_app. split.
      + by repeat constructor.
      + by apply (pretty_N_chars (λ c, c ≠ "/"%char) (N.pos p)). }
  unfold free_of. intros Hin. rewrite Forall_forall in Hall.
  by apply (Hall _ Hin).
Qed.

(** The destination path of a file parses back into its components. *)
Lemma split_dest_path study series name :
  free_of "/" name →
  split "/" (dest_path study series name)
  = ["dicoms"; pretty study; pretty series; name].
Proof.
  intros Hname. unfold dest_path.
  rewrite split_dicoms_prefix.
  change ("/" +:+ pretty series +:+ "/" +:+ name)
    with (String "/" (pretty series +:+ String "/" name)).
  rewrite split_free_app by apply pretty_Z_free.
  rewrite split_free_app by apply pretty_Z_free.
  by rewrite split_free.
Qed.

Lemma startswith_dest_path study series name :
  startswith (dest_path study series name) "dicoms/" = true.
Proof.
  unfold startswith, dest_path. apply bool_decide_eq_true.
  rewrite list_ascii_of_string_app. by eexists.
Qed.

(** X15. What ingestion uploads, the storage scanner finds: after
    ingestion has returned a document for a study, every file of the study
    directory whose name ends in the extension and contains no slash is, in
    the snapshot of the bucket, a file of the series of that number of the
    study of that number. *)
Theorem ingested_files_are_scanned
    (dcmread : bytes → Result Dataset) (now : string)
    (study_dir : Upload.StudyDir) (bucket : Bucket) (db : Firestore)
    (study series : Z) (series_dir : Upload.SeriesDir) (f : Upload.LocalFile) :
  (∃ doc, (Upload.upload_study dcmread now study_dir (bucket, db)).2
          = Ok (Some doc)) →
  int (Upload.study_dir_name study_dir) = Ok study →
  series_dir ∈ Upload.study_dir_subdirs study_dir →
  int (Upload.series_dir_name series_dir) = Ok series →
  f ∈ Upload.glob_dcm_sorted series_dir →
  free_of "/" (Upload.file_name f) →
  Upload.file_name f
  ∈ files_of
      (Sync.get_storage_studies
         (Upload.upload_study dcmread now study_dir (bucket, db)).1.1)
      (pretty study) (pretty series).
Proof.
  intros [doc Hdoc] Hstudy Hdir Hseries Hf Hfree.
  destruct (upload_study_cases dcmread now study_dir bucket db)
    as [(e & _ & H)|[(study' & _ & _ & H)|[(study' & b' & e & _ & _ & H)
       |(study' & b' & l & Hs & Hl & H)]]];
    rewrite H in Hdoc |- *; try done.
  simpl. rewrite Hstudy in Hs. injection Hs as <-.
  destruct (upload_study_loop_stored dcmread study _ _ _ _ _ Hl) as [_ Hst].
  destruct (Hst series_dir series f) as [content Hcontent]; [|done|done|].
  { by rewrite sorted_perm. }
  unfold Sync.get_storage_studies, Sync.group_blobs.
  rewrite fold_blobs_files. unfold files_of at 1. rewrite lookup_empty. simpl.
  apply list_elem_of_omap.
  exists (dest_path study series (Upload.file_name f)). split.
  - unfold list_blobs. apply list_elem_of_filter.
    split; [apply startswith_dest_path|].
    apply list_elem_of_fmap.
    exists (dest_path study series (Upload.file_name f), content).
    split; [done|]. by apply elem_of_map_to_list.
  - unfold recognized. rewrite split_dest_path by done.
    assert (endswith (Upload.file_name f) ".dcm" = true) as ->.
    { unfold Upload.glob_dcm_sorted in Hf. rewrite sorted_perm in Hf.
      by apply list_elem_of_filter in Hf as [? _]. }
    by rewrite !bool_decide_true.
Qed.

Lemma ingested_files_are_scanned_witness :
  "img10.dcm"
  ∈ files_of (Sync.get_storage_studies Sample.first_run.1.1)
      (pretty 7) (pretty 1).
Proof.
  apply (ingested_files_are_scanned Sample.no_header "2024-01-01T00:00:00"
           Sample.study7 ∅ Sample.empty_db 7 1
           {| Upload.series_dir_name := "1";
              Upload.series_dir_files :=
                [{| Upload.file_name := "img3.dcm"; Upload.file_bytes := [] |};
                 {| Upload.file_name := "notes.txt"; Upload.file_bytes := [] |};
                 {| Upload.file_name := "img10.dcm"; Upload.file_bytes := [] |};
                 {| Upload.file_name := "img1.dcm"; Upload.file_bytes := [] |}]
           |}
           {| Upload.file_name := "img10.dcm"; Upload.file_bytes := [] |}).
  - eexists. vm_compute. reflexivity.
  - reflexivity.
  - apply list_elem_of_here.
  - reflexivity.
  - apply list_elem_of_further, list_elem_of_here.
  - unfold free_of. simpl.
    rewrite !not_elem_of_cons. split_and!; try done. apply not_elem_of_nil.
Defined.

(** ** Dry run, as a frame *)

Lemma dry_run_frame (dcmread : bytes → Result Dataset) (bucket : Bucket)
    (db : Firestore) :
  (Sync.sync dcmread bucket db true).1 = db.
Proof.
  unfold Sync.sync, Sync.sync_on.
  by destruct (existing_report_Ok (Sync.get_storage_studies bucket)
                 (Sync.get_firestore_studies db)) as (report & -> & _).
Qed.

(** ** The cleanup script *)




(** ** The entry point of the reconciliation *)

(** X17. The entry point of the reconciliation mutates nothing by
    default: whatever the service account and the bucket, when the argument
    --apply is not on the command line the catalog is returned unchanged. *)
Theorem main_without_apply_changes_nothing
    (dcmread : bytes → Result Dataset)
    (service_account : string → Result string) (connect : string → Bucket)
    (argv : list string) (db : Firestore) :
  "--apply" ∉ argv →
  (SyncMain.main dcmread service_account connect argv db).1 = db.
Proof.
  intros Hno. unfold SyncMain.main.
  destruct argv as [|a [|path rest]]; [done|done|].
  rewrite bool_decide_false by done. simpl.
  destruct (service_account path) as [project|e]; [|done].
  pose proof (dry_run_frame dcmread (connect (SyncMain.bucket_name project))
                db) as H.
  by destruct (Sync.sync _ _ _ true) as [db' [o|e]]; simpl in *; subst.
Qed.

Lemma main_without_apply_changes_nothing_witness :
  (SyncMain.main Sample.no_header sample_account sample_connect
     ["sync_firestore.py"; "account.json"] Sample.dbBC).1
  = Sample.dbBC.
Proof.
  apply (main_without_apply_changes_nothing Sample.no_header sample_account
           sample_connect ["sync_firestore.py"; "account.json"] Sample.dbBC).
  rewrite !not_elem_of_cons. split_and!; try done. apply not_elem_of_nil.
Defined.

(** X18. For every project the bucket name the ingestion entry point
    connects to differs from the one the reconciliation entry point
    connects to: the first ends in .appspot.com, the second in
    .firebasestorage.app. *)
Theorem entry_points_name_different_buckets (project_id : string) :
  Ingest.bucket_name project_id ≠ SyncMain.bucket_name project_id.
Proof.
  unfold Ingest.bucket_name, SyncMain.bucket_name. intros H.
  apply (f_equal String.list_ascii_of_string) in H.
  rewrite !list_ascii_of_string_app in H. by apply app_inv_head in H.
Qed.

(** ** A run of the ingestion *)

Section IngestRun.

Context (dcmread : bytes → Result Dataset).

Lemma upload_study_subseteq now study_dir (bucket : Bucket) db :
  bucket ⊆ (Upload.upload_study dcmread now study_dir (bucket, db)).1.1.
Proof.
  destruct (upload_study_cases dcmread now study_dir bucket db)
    as [(e & _ & ->)|[(study & _ & _ & ->)|[(study & b' & e & Hs & Hl & ->)
       |(study & b' & l & Hs & Hl & ->)]]]; simpl; try done.
  all: destruct (upload_study_loop_frame dcmread study
                   (sorted (λ a b, String.leb (Upload.series_dir_name a)
                                              (Upload.series_dir_name b))
                      (Upload.study_dir_subdirs study_dir)) [] bucket)
         as (S1 & _).
  all: by rewrite Hl in S1.
Qed.



Lemma upload_each_report clock dirs : ∀ idx st up fl,
  let r := Ingest.upload_each dcmread clock idx dirs st up fl in
  ∃ U F,
    r.2.1 = up ++ U ∧ r.2.2 = fl ++ F
    ∧ (length U + length F = length dirs)%nat
    ∧ Forall document_invariants U
    ∧ Forall (λ n, n ∈ Upload.study_dir_name <$> dirs) F
    ∧ st.1 ⊆ r.1.1.
Proof.
  induction dirs as [|d rest IH]; intros idx [bucket db] up fl; cbv zeta.
  { exists [], []. simpl. rewrite !app_nil_r. by split_and!. }
  cbn [Ingest.upload_each].
  pose proof (upload_study_subseteq (clock idx) d bucket db) as Hgrow.
  destruct (Upload.upload_study dcmread (clock idx) d (bucket, db))
    as [st1 res] eqn:E.
  pose proof (λ up1 fl1, IH (S idx) st1 up1 fl1) as Hrest. cbv zeta in Hrest.
  simpl in Hgrow.
  destruct res as [[doc|]|e].
  - destruct (Hrest (up ++ [doc]) fl) as (U & F & HU & HF & Hn & Hi & Hf & Hs).
    exists (doc :: U), F. rewrite HU, HF, <-app_assoc. simpl.
    split_and!; [done|done|lia| | |by etransitivity].
    + constructor; [|done]. by eapply upload_study_invariants.
    + eapply Forall_impl; [exact Hf|]. intros n Hn'. by apply list_elem_of_further.
  - destruct (Hrest up (fl ++ [Upload.study_dir_name d]))
      as (U & F & HU & HF & Hn & Hi & Hf & Hs).
    exists U, (Upload.study_dir_name d :: F). rewrite HU, HF, <-app_assoc.
    simpl. split_and!; [done|done|lia|done| |by etransitivity].
    constructor; [apply list_elem_of_here|].
    eapply Forall_impl; [exact Hf|]. intros n Hn'. by apply list_elem_of_further.
  - destruct (Hrest up (fl ++ [Upload.study_dir_name d]))
      as (U & F & HU & HF & Hn & Hi & Hf & Hs).
    exists U, (Upload.study_dir_name d :: F). rewrite HU, HF, <-app_assoc.
    simpl. split_and!; [done|done|lia|done| |by etransitivity].
    constructor; [apply list_elem_of_here|].
    eapply Forall_impl; [exact Hf|]. intros n Hn'. by apply list_elem_of_further.
Qed.


End IngestRun.

Section IngestProperties.

Context (dcmread : bytes → Result Dataset).


Lemma slice_to_length {A} (n : Z) (l : list A) :
  (length (Builtins.slice_to n l) ≤ length l)%nat
  ∧ (0 ≤ n → (length (Builtins.slice_to n l) ≤ Z.to_nat n)%nat).
Proof.
  unfold Builtins.slice_to.
  case_bool_decide; rewrite length_take; split; lia.
Qed.




End IngestProperties.

Section IngestMain.

Context (dcmread : bytes → Result Dataset).

Lemma upload_studies_limited (clock : nat → string)
    (response : option string) (dicom_root : Ingest.Root) (n : Z)
    (st : Bucket * Firestore) :
  0 < n →
  let r := Ingest.upload_studies dcmread clock response dicom_root true
             (Some n) st in
  match r.2 with
  | Ingest.Returned json failed =>
      (length (Ingest.json_studies json) + length failed ≤ Z.to_nat n)%nat
      ∧ ∃ a, response = Some a ∧ Builtins.lower a = "yes"
  | Ingest.Exited _ => r.1 = st
  end.
Proof.
  intros Hn. cbv zeta. unfold Ingest.upload_studies.
  destruct dicom_root as [|dirs]; [done|].
  destruct dirs as [|d0 dirs0]; [done|].
  cbv beta iota. generalize (d0 :: dirs0). intros dirs.
  rewrite bool_decide_false by lia.
  destruct response as [a|]; [|done].
  case_bool_decide as Ha; [done|].
  destruct (upload_each_report dcmread clock
              (sorted (λ a b, String.leb (Upload.study_dir_name a)
                                         (Upload.study_dir_name b))
                 (Builtins.slice_to n dirs))
              0 st [] []) as (U & F & HU & HF & Hlen & _).
  rewrite sorted_length in Hlen.
  destruct (slice_to_length n dirs) as [_ Hle].
  destruct (Ingest.upload_each dcmread clock 0 _ st [] [])
    as [st' [up fl]]. simpl in *. subst up fl.
  split; [lia|]. exists a. split; [done|].
  by destruct (decide (Builtins.lower a = "yes")).
Qed.

(** X21. With --trial on the command line the ingestion processes at most
    three study directories, and only after the answer yes, in any case of
    letters, to its prompt: when the run returns, the documents listed and
    the studies named as failed are together at most three.  When it exits
    instead, the catalog is unchanged and the bucket, if one was connected
    to, is as it was found. *)
Theorem trial_run_is_bounded (clock : nat → string)
    (service_account : string → option (Result string))
    (connect : string → Bucket) (tree : string → Ingest.Root)
    (argv : list string) (response : option string) (db : Firestore) :
  "--trial" ∈ argv →
  let r := Ingest.main dcmread clock service_account connect tree argv
             response db in
  match r.2 with
  | Ingest.Returned json failed =>
      (length (Ingest.json_studies json) + length failed ≤ 3)%nat
      ∧ ∃ a, response = Some a ∧ Builtins.lower a = "yes"
  | Ingest.Exited _ =>
      r.1.2 = db
      ∧ (r.1.1 = None
         ∨ ∃ project_id,
             r.1.1 = Some (connect (Ingest.bucket_name project_id)))
  end.
Proof.
  intros Htrial. cbv zeta. unfold Ingest.main.
  destruct argv as [|a0 [|path [|dir rest]]];
    [by split; [|left]|by split; [|left]|by split; [|left]|].
  rewrite bool_decide_true by done.
  destruct (service_account path) as [[project|e]|];
    [|by split; [|left]|by split; [|left]].
  pose proof (upload_studies_limited clock response (tree dir) 3
                (connect (Ingest.bucket_name project), db)) as H.
  cbv zeta in H. specialize (H ltac:(lia)).
  destruct (Ingest.upload_studies dcmread clock response (tree dir) true
              (Some 3) (connect (Ingest.bucket_name project), db))
    as [[b' db'] [stop|json failed]]; simpl in *.
  - injection H as -> ->. split; [done|]. right. by exists project.
  - done.
Qed.

End IngestMain.

Lemma trial_run_is_bounded_witness :
  let r := Ingest.main Sample.no_header sample_clock
             (λ _, Some (Ok "lstv")) sample_connect
             (λ _, Ingest.Directory [Sample.study7])
             ["upload_dicoms.py"; "account.json"; "dicoms"; "--trial"]
             (Some "Yes") Sample.empty_db in
  match r.2 with
  | Ingest.Returned json failed =>
      (length (Ingest.json_studies json) + length failed ≤ 3)%nat
      ∧ ∃ a, Some "Yes" = Some a ∧ Builtins.lower a = "yes"
  | Ingest.Exited _ =>
      r.1.2 = Sample.empty_db
      ∧ (r.1.1 = None
         ∨ ∃ project_id,
             r.1.1 = Some (sample_connect (Ingest.bucket_name project_id)))
  end.
Proof.
  apply (trial_run_is_bounded Sample.no_header sample_clock
           (λ _, Some (Ok "lstv"))
           sample_connect (λ _, Ingest.Directory [Sample.study7])
           ["upload_dicoms.py"; "account.json"; "dicoms"; "--trial"]
           (Some "Yes") Sample.empty_db).
  do 3 apply list_elem_of_further. apply list_elem_of_here.
Defined.

Section IngestFull.

Context (dcmread : bytes → Result Dataset).



End IngestFull.

